(** * AATX tracking-plan validation action: a model of [src/index.js]

    The action is one sequential script: it reads its inputs, posts one
    validation request, reports the reply through log lines and step
    outputs, optionally publishes a pull-request review, and finally decides
    whether the step is marked failed.

    The script is embedded as a function from an [environment] (inputs,
    GitHub context, the replies of the two remote services) to the ordered
    list of effects it performs.  JavaScript values are kept dynamic, since
    the reply of the validation service is whatever JSON document the server
    sent: absent fields, [null]s and wrongly typed fields all occur in the
    model, together with the [TypeError]s they provoke. *)

From Stdlib Require Import String Ascii ZArith List Bool Lia DecimalString
Permutation.
Import ListNotations.
Local Open Scope string_scope.
Local Open Scope list_scope.
Set Warnings "-register-all".

(** ** The JavaScript fragment used by the script *)

Module JS.

(** A parsed JSON document, plus [undefined].  Strings are UTF-8 byte
    sequences.  [JNum n] is the integer-valued double [n]; fractional numbers
    are not represented.  The fields of [JObj] are listed in the order in
    which the engine enumerates the object's own keys, one entry per key. *)
Inductive value : Type :=
| JUndefined
| JNull
| JBool (b : bool)
| JNum (n : Z)
| JStr (s : string)
| JArr (items : list value)
| JObj (fields : list (string * value)).

(** The [response] member of an HTTP client error.  The script only ever
    prints [response.data] through [JSON.stringify], so the data is carried
    as that rendering. *)
Record error_response := { status : Z; data_json : string }.

(** A thrown [Error]: its [message] and, for HTTP client errors, the
    [response] member. *)
Record js_error := { message : string; response : option error_response }.

Definition Error (msg : string) : js_error :=
  {| message := msg; response := None |}.

(** Result of evaluating an expression: a value, a thrown exception, or
    [Unsupported] when evaluation needs a coercion that this fragment leaves
    out (turning arrays, objects or strings into numbers or text, indexing
    into a string, printing an integer beyond 2^53).  [Unsupported] is never
    caught: a run that meets it lies outside the model, which describes it
    only up to that point.  No payload whose fields have the types of the
    data model meets it. *)
Inductive outcome (A : Type) : Type :=
| Ret (a : A)
| Throw (e : js_error)
| Unsupported.

Arguments Ret {A} a.
Arguments Throw {A} e.
Arguments Unsupported {A}.

Definition obind {A B} (o : outcome A) (k : A -> outcome B) : outcome B :=
  match o with
  | Ret a => k a
  | Throw e => Throw e
  | Unsupported => Unsupported
  end.

(** [ToBoolean]: what [!x], [x ? a : b], [x || y] and [x && y] test. *)
Definition truthy (v : value) : bool :=
  match v with
  | JUndefined | JNull => false
  | JBool b => b
  | JNum n => negb (Z.eqb n 0)
  | JStr s => negb (String.eqb s "")
  | JArr _ | JObj _ => true
  end.

(** [typeof v === 'object'] (true of [null] as well). *)
Definition typeof_object (v : value) : bool :=
  match v with
  | JNull | JArr _ | JObj _ => true
  | _ => false
  end.

Definition nullish (v : value) : bool :=
  match v with
  | JUndefined | JNull => true
  | _ => false
  end.

(** [a || b] *)
Definition or_else (a b : value) : value := if truthy a then a else b.

Fixpoint lookup (k : string) (fields : list (string * value)) : value :=
  match fields with
  | [] => JUndefined
  | (k', v) :: rest => if String.eqb k k' then v else lookup k rest
  end.

Definition kind_name (v : value) : string :=
  match v with JNull => "null" | _ => "undefined" end.

(** [v.k] for the data property names the script reads (none of them is
    inherited from a prototype).  Reading a property of [null] or
    [undefined] throws; primitives have no such properties; an array only
    has [length]. *)
Definition get (v : value) (k : string) : outcome value :=
  match v with
  | JUndefined | JNull =>
      Throw (Error ("Cannot read properties of " ++ kind_name v
                    ++ " (reading '" ++ k ++ "')"))
  | JBool _ | JNum _ => Ret JUndefined
  | JStr _ => if String.eqb k "length" then Unsupported else Ret JUndefined
  | JArr items =>
      if String.eqb k "length" then Ret (JNum (Z.of_nat (length items)))
      else Ret JUndefined
  | JObj fields => Ret (lookup k fields)
  end.

(** [v?.k] *)
Definition get_opt (v : value) (k : string) : outcome value :=
  if nullish v then Ret JUndefined else get v k.

(** [v[0]] for a truthy [v]. *)
Definition index0 (v : value) : outcome value :=
  match v with
  | JArr items => Ret (hd JUndefined items)
  | JObj fields => Ret (lookup "0" fields)
  | JStr _ => Unsupported
  | _ => Ret JUndefined
  end.

Definition safe_integer (n : Z) : bool :=
  (Z.leb (- 2 ^ 53) n && Z.leb n (2 ^ 53))%Z.

Definition decimal (n : Z) : string := NilZero.string_of_int (Z.to_int n).

(** [ToString], as applied by a template literal. *)
Definition to_string (v : value) : outcome string :=
  match v with
  | JUndefined => Ret "undefined"
  | JNull => Ret "null"
  | JBool true => Ret "true"
  | JBool false => Ret "false"
  | JNum n => if safe_integer n then Ret (decimal n) else Unsupported
  | JStr s => Ret s
  | JArr _ | JObj _ => Unsupported
  end.

(** [v > 0] *)
Definition gt0 (v : value) : outcome bool :=
  match v with
  | JUndefined | JNull => Ret false
  | JBool b => Ret b
  | JNum n => Ret (Z.ltb 0 n)
  | JStr _ | JArr _ | JObj _ => Unsupported
  end.

(** [v === s] for a string literal [s]. *)
Definition strict_eq_string (v : value) (s : string) : bool :=
  match v with
  | JStr s' => String.eqb s' s
  | _ => false
  end.

(** [String.prototype.trim] on UTF-8 text: strips the ECMAScript white space
    and line terminator code points from both ends. *)
Fixpoint trim_start_bytes (bs : list ascii) : list ascii :=
  match bs with
  | c :: rest =>
      match nat_of_ascii c, rest with
      | (9 | 10 | 11 | 12 | 13 | 32)%nat, _ => trim_start_bytes rest
      | 194%nat, c1 :: rest1 =>
          if Nat.eqb (nat_of_ascii c1) 160 then trim_start_bytes rest1 else bs
      | (225 | 226 | 227 | 239)%nat, c1 :: c2 :: rest2 =>
          let a := nat_of_ascii c in
          let b := nat_of_ascii c1 in
          let d := nat_of_ascii c2 in
          if ((a =? 225) && (b =? 154) && (d =? 128)
              || (a =? 226) && (b =? 128)
                 && ((128 <=? d) && (d <=? 138) || (d =? 168) || (d =? 169)
                     || (d =? 175))
              || (a =? 226) && (b =? 129) && (d =? 159)
              || (a =? 227) && (b =? 128) && (d =? 128)
              || (a =? 239) && (b =? 187) && (d =? 191))%nat
          then trim_start_bytes rest2 else bs
      | _, _ => bs
      end
  | [] => []
  end.

(** The same table read from the end of the text (bytes reversed). *)
Fixpoint trim_end_rev (bs : list ascii) : list ascii :=
  match bs with
  | c :: rest =>
      match nat_of_ascii c, rest with
      | (9 | 10 | 11 | 12 | 13 | 32)%nat, _ => trim_end_rev rest
      | _, c1 :: rest1 =>
          let d := nat_of_ascii c in
          let b := nat_of_ascii c1 in
          if ((d =? 160) && (b =? 194))%nat then trim_end_rev rest1
          else
            match rest1 with
            | c2 :: rest2 =>
                let a := nat_of_ascii c2 in
                if ((a =? 225) && (b =? 154) && (d =? 128)
                    || (a =? 226) && (b =? 128)
                       && ((128 <=? d) && (d <=? 138) || (d =? 168)
                           || (d =? 169) || (d =? 175))
                    || (a =? 226) && (b =? 129) && (d =? 159)
                    || (a =? 227) && (b =? 128) && (d =? 128)
                    || (a =? 239) && (b =? 187) && (d =? 191))%nat
                then trim_end_rev rest2 else bs
            | [] => bs
            end
      | _, [] => bs
      end
  | [] => []
  end.

Definition trim (s : string) : string :=
  string_of_list_ascii
    (rev (trim_end_rev (rev (trim_start_bytes (list_ascii_of_string s))))).

(** [v.trim()] for a truthy [v]: only strings have the method. *)
Definition call_trim (what : string) (v : value) : outcome string :=
  match v with
  | JStr s => Ret (trim s)
  | _ => Throw (Error (what ++ ".trim is not a function"))
  end.

(** [Object.keys(v)] for a truthy [v]. *)
Definition object_keys (v : value) : outcome (list string) :=
  match v with
  | JObj fields => Ret (map fst fields)
  | JArr items => Ret (map (fun i => decimal (Z.of_nat i)) (seq 0 (length items)))
  | JStr _ => Unsupported
  | _ => Ret []
  end.

(** [strings.join(sep)] on an array of strings. *)
Definition join (sep : string) (items : list string) : string :=
  String.concat sep items.

(** The text [Array.prototype.join] uses for one element: empty for
    [undefined] and [null], [ToString] otherwise. *)
Definition join_item (v : value) : outcome string :=
  if nullish v then Ret "" else to_string v.

Fixpoint mapM {A B} (f : A -> outcome B) (l : list A) : outcome (list B) :=
  match l with
  | [] => Ret []
  | x :: rest =>
      obind (f x) (fun y => obind (mapM f rest) (fun ys => Ret (y :: ys)))
  end.

Fixpoint filterM {A} (f : A -> outcome bool) (l : list A) : outcome (list A) :=
  match l with
  | [] => Ret []
  | x :: rest =>
      obind (f x) (fun keep =>
      obind (filterM f rest) (fun ys => Ret (if keep then x :: ys else ys)))
  end.

(** [events?.filter(e => e.status === status) || []] where [events] is the
    value of [result.events]. *)
Definition filter_by_status (events : value) (status : string)
  : outcome (list value) :=
  match events with
  | JUndefined | JNull => Ret []
  | JArr items =>
      filterM (fun e => obind (get e "status")
                          (fun s => Ret (strict_eq_string s status))) items
  | _ => Throw (Error "result.events?.filter is not a function")
  end.

End JS.

(** ** The world the script runs in *)

Module Action.
Import JS.

(** [github.context.payload.pull_request], as far as the script reads it. *)
Record pull_request := { number : Z; head_sha : string; base_sha : string }.

(** Everything the run depends on.
    - [inputs name] is the text of the action input [name] (the
      [INPUT_...] variable), empty when it is not set;
    - [repo] is [github.context.repo]: the getter throws when the
      repository identity is not available;
    - [payload_pull_request] is present exactly for pull-request triggers;
    - [GITHUB_TOKEN] is [process.env.GITHUB_TOKEN];
    - [validation_reply] is how the single POST ends: rejected with an
      error, or resolved with this [response.data];
    - [review_reply] is how [pulls.createReview] ends, should it be called:
      [None] for success, otherwise the error it rejects with. *)
Record environment := {
  inputs : string -> string;
  repo : option (string * string);
  payload_pull_request : option pull_request;
  GITHUB_TOKEN : option string;
  validation_reply : js_error + value;
  review_reply : option js_error
}.

Record prDetails_t := { prNumber : Z; headSha : string; baseSha : string }.

Record request_options := {
  holistic : bool;
  delta : bool;
  autoUpdateTrackingPlan : bool;
  overwriteExisting : bool;
  comment : bool
}.

(** [prDetails] is [None] for the empty object. *)
Record validation_request := {
  repositoryUrl : string;
  trackingPlanId : string;
  options : request_options;
  prDetails : option prDetails_t
}.

Record review_comment := { path : value; line : value; body : string }.

Inductive review_event := REQUEST_CHANGES | COMMENT.

Record review_request := {
  owner : string;
  repo_name : string;
  pull_number : Z;
  review_body : string;
  event : review_event;
  comments : list review_comment
}.

(** What the run does to the outside, in order.  [EnterPublisher] is a
    marker recording that [addPrReviewComments] was called; the other
    constructors are calls of [core.info], [core.warning], [core.error],
    [core.setOutput], [core.setFailed], [axios.post] and
    [octokit.rest.pulls.createReview]. *)
Inductive effect : Type :=
| Info (msg : string)
| Warning (msg : string)
| LogError (msg : string)
| SetOutput (name : string) (v : value)
| SetFailed (msg : string)
| Post (url : string) (request : validation_request)
       (headers : list (string * string))
| EnterPublisher
| CreateReview (request : review_request).

(** Computations: an outcome together with the effects performed so far. *)
Definition M (A : Type) : Type := outcome A * list effect.

Definition ret {A} (a : A) : M A := (Ret a, []).

Definition bind {A B} (m : M A) (k : A -> M B) : M B :=
  match m with
  | (Ret a, t) => let (o, t') := k a in (o, t ++ t')
  | (Throw e, t) => (Throw e, t)
  | (Unsupported, t) => (Unsupported, t)
  end.

Definition eval {A} (o : outcome A) : M A := (o, []).
Definition throw {A} (e : js_error) : M A := (Throw e, []).
Definition emit (e : effect) : M unit := (Ret tt, [e]).

(** [try { body } catch (error) { handler }] *)
Definition try_catch {A} (body : M A) (handler : js_error -> M A) : M A :=
  match body with
  | (Throw e, t) => let (o, t') := handler e in (o, t ++ t')
  | other => other
  end.

Declare Scope action_scope.
Delimit Scope action_scope with action.
Notation "x <- m ;; k" := (bind m (fun x => k))
  (at level 61, m at next level, right associativity) : action_scope.
Notation "m ;; k" := (bind m (fun _ => k))
  (at level 61, right associativity) : action_scope.
Local Open Scope action_scope.

Definition when (b : bool) (m : M unit) : M unit := if b then m else ret tt.

(** [list.forEach((x, index) => f)] *)
Fixpoint forEach {A} (f : A -> nat -> M unit) (l : list A) (index : nat)
  : M unit :=
  match l with
  | [] => ret tt
  | x :: rest => f x index ;; forEach f rest (S index)
  end.

(** *** The toolkit functions the script calls *)

Definition nl : string := String "010" EmptyString.
Definition dquote : string := String "034" EmptyString.

(** [core.getInput(name, { required })] *)
Definition getInput (env : environment) (name : string) (required : bool)
  : outcome string :=
  let val := inputs env name in
  if required && String.eqb val ""
  then Throw (Error ("Input required and not supplied: " ++ name))
  else Ret (trim val).

Definition trueValue : list string := ["true"; "True"; "TRUE"].
Definition falseValue : list string := ["false"; "False"; "FALSE"].

Definition includes (l : list string) (s : string) : bool :=
  existsb (String.eqb s) l.

(** [core.getBooleanInput(name)] *)
Definition getBooleanInput (env : environment) (name : string)
  : outcome bool :=
  obind (getInput env name false) (fun val =>
  if includes trueValue val then Ret true
  else if includes falseValue val then Ret false
  else Throw (Error ("Input does not meet YAML 1.2 " ++ dquote ++ "Core Schema"
                     ++ dquote ++ " specification: " ++ name ++ nl
                     ++ "Support boolean input list: "
                     ++ "`true | True | TRUE | false | False | FALSE`"))).

(** [github.context.repo] *)
Definition context_repo (env : environment) : outcome (string * string) :=
  match repo env with
  | Some r => Ret r
  | None => Throw (Error ("context.repo requires a GITHUB_REPOSITORY "
                          ++ "environment variable like 'owner/repo'"))
  end.

Definition core_info (msg : string) : M unit := emit (Info msg).
Definition core_warning (msg : string) : M unit := emit (Warning msg).
Definition core_error (msg : string) : M unit := emit (LogError msg).
Definition core_setOutput (name : string) (v : value) : M unit :=
  emit (SetOutput name v).
Definition core_setFailed (msg : string) : M unit := emit (SetFailed msg).

(** [await axios.post(url, request, { headers })], already reduced to
    [response.data]. *)
Definition axios_post (env : environment) (url : string)
  (request : validation_request) (headers : list (string * string))
  : M value :=
  emit (Post url request headers) ;;
  match validation_reply env with
  | inl e => throw e
  | inr data => ret data
  end.

(** [await octokit.rest.pulls.createReview(request)] *)
Definition pulls_createReview (env : environment) (request : review_request)
  : M unit :=
  emit (CreateReview request) ;;
  match review_reply env with
  | Some e => throw e
  | None => ret tt
  end.

End Action.

(** ** The script, [src/index.js] *)

(** The values read by lines 8-21 of the script. *)
Module Inputs.
Record t := {
  apiKey : string;
  trackingPlanId : string;
  apiUrl : string;
  holistic : bool;
  delta : bool;
  autoUpdate : bool;
  overwrite : bool;
  comment : bool;
  failOnInvalid : bool;
  owner : string;
  repo : string
}.
End Inputs.


Import JS Action.
Local Open Scope action_scope.
Local Open Scope string_scope.

(** [result.summary?.field || 0] *)
Definition summary_or_0 (result : value) (field : string) : outcome value :=
  obind (get result "summary") (fun summary =>
  obind (get_opt summary field) (fun n =>
  Ret (or_else n (JNum 0)))).

(** [event.implementation && event.implementation.length > 0] *)
Definition has_implementation (event : value) : outcome bool :=
  obind (get event "implementation") (fun implementation =>
  if truthy implementation
  then obind (get implementation "length") gt0
  else Ret false).

(** [const impl = event.implementation[0]] *)
Definition first_implementation (event : value) : outcome value :=
  obind (get event "implementation") index0.

(** The location lines of one logged event (lines 87-93 and 121-127):
    [Location: path:line] for the first implementation entry, then its
    trimmed code when there is some. *)
Definition log_location (log : string -> M unit) (event : value) : M unit :=
  has <- eval (has_implementation event) ;;
  when has (
    impl <- eval (first_implementation event) ;;
    path_ <- eval (obind (get impl "path") to_string) ;;
    line_ <- eval (obind (get impl "line") to_string) ;;
    log ("   Location: " ++ path_ ++ ":" ++ line_) ;;
    code <- eval (get impl "code") ;;
    when (truthy code) (
      trimmed <- eval (call_trim "impl.code" code) ;;
      log ("   Code: " ++ trimmed))).

(** The property line of one logged event (lines 94-96, 109-111, 128-130). *)
Definition log_properties (log : string -> M unit) (label : string)
  (event : value) : M unit :=
  properties <- eval (get event "properties") ;;
  when (truthy properties) (
    keys <- eval (object_keys properties) ;;
    when (Nat.ltb 0 (length keys)) (
      log ("   " ++ label ++ ": " ++ join ", " keys))).

(** [`\n${index + 1}. Event: ${event.name}`] *)
Definition event_heading (event : value) (index : nat) : outcome string :=
  obind (obind (get event "name") to_string) (fun name =>
  Ret (nl ++ decimal (Z.of_nat index + 1) ++ ". Event: " ++ name)).

(** The optional message line of one logged event. *)
Definition log_message (log : string -> M unit) (label : string)
  (event : value) : M unit :=
  msg <- eval (get event "message") ;;
  when (truthy msg) (
    text <- eval (to_string msg) ;;
    log ("   " ++ label ++ ": " ++ text)).

(** Lines 79-98. *)
Definition log_invalid_events (invalidEvents : list value) : M unit :=
  when (Nat.ltb 0 (length invalidEvents)) (
    core_warning (nl ++ "❌ INVALID EVENTS ("
                  ++ decimal (Z.of_nat (length invalidEvents)) ++ "):") ;;
    forEach (fun event index =>
      heading <- eval (event_heading event index) ;;
      core_warning heading ;;
      log_message core_warning "Error" event ;;
      log_location core_warning event ;;
      log_properties core_warning "Required Properties" event)
      invalidEvents 0).

(** Lines 101-113. *)
Definition log_missing_events (missingEvents : list value) : M unit :=
  when (Nat.ltb 0 (length missingEvents)) (
    core_warning (nl ++ "⚠️ MISSING EVENTS ("
                  ++ decimal (Z.of_nat (length missingEvents)) ++ "):") ;;
    forEach (fun event index =>
      heading <- eval (event_heading event index) ;;
      core_warning heading ;;
      log_message core_warning "Note" event ;;
      log_properties core_warning "Required Properties" event)
      missingEvents 0).

(** Lines 116-132. *)
Definition log_new_events (newEvents : list value) : M unit :=
  when (Nat.ltb 0 (length newEvents)) (
    core_info (nl ++ "🆕 NEW EVENTS ("
               ++ decimal (Z.of_nat (length newEvents)) ++ "):") ;;
    forEach (fun event index =>
      heading <- eval (event_heading event index) ;;
      core_info heading ;;
      log_location core_info event ;;
      log_properties core_info "Detected Properties" event)
      newEvents 0).

(** [`${result.summary?.field || 0}`] *)
Definition count_text (result : value) (field : string) : outcome string :=
  obind (summary_or_0 result field) to_string.

(** [event.properties ? Object.keys(event.properties).join(', ') : none] *)
Definition properties_text (event : value) (none : string) : outcome string :=
  obind (get event "properties") (fun properties =>
  if truthy properties
  then obind (object_keys properties) (fun keys => Ret (join ", " keys))
  else Ret none).

(** The comment pushed for one event that has an implementation
    (lines 197-202 and 210-215); [title], [default_message] and [label],
    [none] are the parts in which the two templates differ. *)
Definition event_comment (title default_message label none : string)
  (event : value) : outcome review_comment :=
  obind (first_implementation event) (fun impl =>
  obind (get impl "path") (fun path_ =>
  obind (get impl "line") (fun line_ =>
  obind (obind (get event "name") to_string) (fun name =>
  obind (get event "message") (fun msg =>
  obind (to_string (or_else msg (JStr default_message))) (fun text =>
  obind (properties_text event none) (fun props =>
  Ret {| path := path_;
         line := line_;
         body := title ++ ": `" ++ name ++ "`" ++ nl ++ nl ++ text ++ nl ++ nl
                 ++ "**" ++ label ++ "**: " ++ props |}))))))).

(** [for (const event of events) { if (...) reviewComments.push(...) }] *)
Fixpoint push_event_comments (title default_message label none : string)
  (events : list value) (reviewComments : list review_comment)
  : outcome (list review_comment) :=
  match events with
  | [] => Ret reviewComments
  | event :: rest =>
      obind (has_implementation event) (fun has =>
      if has
      then obind (event_comment title default_message label none event)
             (fun c => push_event_comments title default_message label none
                         rest (reviewComments ++ [c])%list)
      else push_event_comments title default_message label none
             rest reviewComments)
  end.

Definition invalid_title : string := "❌ **Invalid Event**".
Definition invalid_default : string := "Event does not match tracking plan".
Definition new_title : string := "🆕 **New Event**".
Definition new_default : string :=
  "Event found in codebase but not in tracking plan".

(** [missingEvents.map(e => `\`${e.name}\``).join(', ')] *)
Definition missing_names (missingEvents : list value) : outcome string :=
  obind (mapM (fun e => obind (obind (get e "name") to_string)
                          (fun name => Ret ("`" ++ name ++ "`")))
              missingEvents)
        (fun names => Ret (join ", " names)).

(** Lines 221-228. *)
Definition push_missing_comment (missingEvents : list value)
  (reviewComments : list review_comment) : outcome (list review_comment) :=
  if Nat.ltb 0 (length missingEvents) then
    obind (missing_names missingEvents) (fun missingEventNames =>
    Ret (app reviewComments
         [{| path := JStr "README.md";
             line := JNum 1;
             body := "⚠️ **Missing Events**: The following events are defined in the tracking plan but not found in the codebase:"
                     ++ nl ++ nl ++ missingEventNames ++ nl ++ nl
                     ++ "Please implement these events or remove them from the tracking plan." |}]))
  else Ret reviewComments.

(** Lines 191-228: the comment list of a review. *)
Definition build_review_comments (result : value)
  : outcome (list review_comment) :=
  let reviewComments := [] in
  obind (get result "events") (fun events =>
  obind (filter_by_status events "invalid") (fun invalidEvents =>
  obind (push_event_comments invalid_title invalid_default
           "Required Properties" "None specified" invalidEvents reviewComments)
        (fun reviewComments =>
  obind (filter_by_status events "new") (fun newEvents =>
  obind (push_event_comments new_title new_default
           "Properties" "None detected" newEvents reviewComments)
        (fun reviewComments =>
  obind (filter_by_status events "missing") (fun missingEvents =>
  push_missing_comment missingEvents reviewComments)))))).

(** [!token] for [process.env.GITHUB_TOKEN]: unset or empty. *)
Definition token_missing (token : option string) : bool :=
  match token with
  | None => true
  | Some s => String.eqb s ""
  end.

(** [`${result.metadata?.field ? `\n**label**: ${result.metadata.field}suffix` : ''}`] *)
Definition metadata_text (result : value) (field label suffix : string)
  : outcome string :=
  obind (get result "metadata") (fun metadata =>
  obind (get_opt metadata field) (fun v =>
  if truthy v
  then obind (obind (get metadata field) to_string) (fun text =>
       Ret (nl ++ "**" ++ label ++ "**: " ++ text ++ suffix))
  else Ret "")).

(** Lines 232-244: the summary body of the review. *)
Definition reviewBody (result : value) : outcome string :=
  obind (count_text result "totalEvents") (fun total =>
  obind (count_text result "validEvents") (fun valid =>
  obind (count_text result "invalidEvents") (fun invalid =>
  obind (count_text result "missingEvents") (fun missing =>
  obind (count_text result "newEvents") (fun new =>
  obind (get result "trackingPlanUpdated") (fun updated =>
  obind (get result "valid") (fun is_valid =>
  obind (metadata_text result "validationDuration" "Validation Duration" "ms")
        (fun duration =>
  obind (metadata_text result "agentVersion" "Agent Version" "")
        (fun version =>
  Ret ("## AATX Tracking Plan Validation Review" ++ nl
       ++ "      " ++ nl
       ++ "- **Total Events**: " ++ total ++ nl
       ++ "- **Valid Events**: " ++ valid ++ nl
       ++ "- **Invalid Events**: " ++ invalid ++ nl
       ++ "- **Missing Events**: " ++ missing ++ nl
       ++ "- **New Events**: " ++ new ++ nl
       ++ nl
       ++ (if truthy updated
           then "✅ Tracking plan was automatically updated with new events"
           else "") ++ nl
       ++ (if negb (truthy is_valid)
           then "❌ Some events do not match the tracking plan"
           else "✅ All events match the tracking plan") ++ nl
       ++ nl
       ++ duration ++ nl
       ++ version)))))))))).

(** [result.summary?.invalidEvents > 0 ? "REQUEST_CHANGES" : "COMMENT"] *)
Definition review_disposition (result : value) : outcome review_event :=
  obind (get result "summary") (fun summary =>
  obind (get_opt summary "invalidEvents") (fun n =>
  obind (gt0 n) (fun positive =>
  Ret (if positive then REQUEST_CHANGES else COMMENT)))).

(** [context.payload.pull_request.number] *)
Definition context_pr_number (env : environment) : outcome Z :=
  match payload_pull_request env with
  | Some pr => Ret (number pr)
  | None => Throw (Error "Cannot read properties of undefined (reading 'number')")
  end.

(** Lines 177-266. *)
Definition addPrReviewComments (env : environment) (result : value) : M unit :=
  emit EnterPublisher ;;
  try_catch (
    let token := GITHUB_TOKEN env in
    if token_missing token then
      core_warning "GITHUB_TOKEN not available, skipping PR review comments"
    else
      owner_repo <- eval (context_repo env) ;;
      prNumber <- eval (context_pr_number env) ;;
      reviewComments <- eval (build_review_comments result) ;;
      if Nat.ltb 0 (length reviewComments) then
        body_ <- eval (reviewBody result) ;;
        event_ <- eval (review_disposition result) ;;
        pulls_createReview env
          {| owner := fst owner_repo;
             repo_name := snd owner_repo;
             pull_number := prNumber;
             review_body := body_;
             event := event_;
             comments := reviewComments |} ;;
        core_info ("Created PR review with "
                   ++ decimal (Z.of_nat (length reviewComments)) ++ " comments")
      else
        core_info "No review comments to add")
    (fun error =>
      core_warning ("Failed to add PR review comments: " ++ message error) ;;
      match response error with
      | Some r => core_error ("GitHub API response: " ++ data_json r)
      | None => ret tt
      end).

(** [events.map(e => e.name).join(', ')] *)
Definition joined_names (events : list value) : outcome string :=
  obind (mapM (fun e => obind (get e "name") join_item) events)
        (fun names => Ret (join ", " names)).

(** Lines 149-166: the failure message and [core.setFailed]. *)
Definition fail_on_invalid (result : value)
  (invalidEvents missingEvents : list value) : M unit :=
  invalidCount <- eval (summary_or_0 result "invalidEvents") ;;
  missingCount <- eval (summary_or_0 result "missingEvents") ;;
  invalidText <- eval (to_string invalidCount) ;;
  missingText <- eval (to_string missingCount) ;;
  let errorMessage :=
    "❌ Validation failed with " ++ invalidText ++ " invalid events and "
    ++ missingText ++ " missing events" in
  someInvalid <- eval (gt0 invalidCount) ;;
  errorMessage <-
    (if someInvalid : bool
     then names <- eval (joined_names invalidEvents) ;;
          ret (errorMessage ++ nl ++ nl ++ "Invalid events: " ++ names)
     else ret errorMessage) ;;
  someMissing <- eval (gt0 missingCount) ;;
  errorMessage <-
    (if someMissing : bool
     then names <- eval (joined_names missingEvents) ;;
          ret (errorMessage ++ nl ++ nl ++ "Missing events: " ++ names)
     else ret errorMessage) ;;
  core_setFailed
    (errorMessage ++ nl ++ nl
     ++ "See the detailed output above for specific issues and locations.").

(** Lines 135-141. *)
Definition set_outputs (result : value) : M unit :=
  valid <- eval (get result "valid") ;;
  core_setOutput "valid" valid ;;
  total <- eval (summary_or_0 result "totalEvents") ;;
  core_setOutput "total_events" total ;;
  validEvents <- eval (summary_or_0 result "validEvents") ;;
  core_setOutput "valid_events" validEvents ;;
  invalid <- eval (summary_or_0 result "invalidEvents") ;;
  core_setOutput "invalid_events" invalid ;;
  missing <- eval (summary_or_0 result "missingEvents") ;;
  core_setOutput "missing_events" missing ;;
  new <- eval (summary_or_0 result "newEvents") ;;
  core_setOutput "new_events" new ;;
  updated <- eval (get result "trackingPlanUpdated") ;;
  core_setOutput "tracking_plan_updated" (or_else updated (JBool false)).

(** Lines 67-76. *)
Definition log_summary (result : value) : M unit :=
  valid <- eval (get result "valid") ;;
  core_info ("Validation completed with "
             ++ (if truthy valid then "success" else "errors")) ;;
  total <- eval (count_text result "totalEvents") ;;
  core_info ("Total events: " ++ total) ;;
  validEvents <- eval (count_text result "validEvents") ;;
  core_info ("Valid events: " ++ validEvents) ;;
  invalid <- eval (count_text result "invalidEvents") ;;
  core_info ("Invalid events: " ++ invalid) ;;
  missing <- eval (count_text result "missingEvents") ;;
  core_info ("Missing events: " ++ missing) ;;
  new <- eval (count_text result "newEvents") ;;
  core_info ("New events: " ++ new) ;;
  updated <- eval (get result "trackingPlanUpdated") ;;
  when (truthy updated)
    (core_info "Tracking plan was automatically updated with new events").

(** [context.payload.pull_request] as a condition. *)
Definition is_pull_request (env : environment) : bool :=
  match payload_pull_request env with
  | Some _ => true
  | None => false
  end.

(** Lines 59-166: everything after the HTTP call has resolved with
    [result = response.data]. *)
Definition report (env : environment) (comment_ failOnInvalid : bool)
  (result : value) : M unit :=
  if negb (truthy result) || negb (typeof_object result) then
    throw (Error "Invalid response format from validation API")
  else
    log_summary result ;;
    events <- eval (get result "events") ;;
    invalidEvents <- eval (filter_by_status events "invalid") ;;
    log_invalid_events invalidEvents ;;
    missingEvents <- eval (filter_by_status events "missing") ;;
    log_missing_events missingEvents ;;
    newEvents <- eval (filter_by_status events "new") ;;
    log_new_events newEvents ;;
    set_outputs result ;;
    when (comment_ && is_pull_request env)
      (addPrReviewComments env result) ;;
    valid <- eval (get result "valid") ;;
    when (negb (truthy valid) && failOnInvalid)
      (fail_on_invalid result invalidEvents missingEvents).

(** Lines 8-21: the inputs and the repository identity, read in the order
    of the source; the first failing read throws. *)
Definition collect_inputs (env : environment) : outcome Inputs.t :=
  obind (getInput env "api-key" true) (fun apiKey =>
  obind (getInput env "tracking-plan-id" true) (fun trackingPlanId_ =>
  obind (getInput env "api-url" false) (fun apiUrl =>
  obind (getBooleanInput env "holistic") (fun holistic_ =>
  obind (getBooleanInput env "delta") (fun delta_ =>
  obind (getBooleanInput env "auto-update") (fun autoUpdate =>
  obind (getBooleanInput env "overwrite") (fun overwrite =>
  obind (getBooleanInput env "comment") (fun comment_ =>
  obind (getBooleanInput env "fail-on-invalid") (fun failOnInvalid =>
  obind (context_repo env) (fun owner_repo =>
  Ret {| Inputs.apiKey := apiKey;
         Inputs.trackingPlanId := trackingPlanId_;
         Inputs.apiUrl := apiUrl;
         Inputs.holistic := holistic_;
         Inputs.delta := delta_;
         Inputs.autoUpdate := autoUpdate;
         Inputs.overwrite := overwrite;
         Inputs.comment := comment_;
         Inputs.failOnInvalid := failOnInvalid;
         Inputs.owner := fst owner_repo;
         Inputs.repo := snd owner_repo |})))))))))).

(** Lines 24-45. *)
Definition validationRequest (env : environment) (i : Inputs.t)
  : validation_request :=
  {| repositoryUrl :=
       "https://github.com/" ++ Inputs.owner i ++ "/" ++ Inputs.repo i;
     trackingPlanId := Inputs.trackingPlanId i;
     options := {| holistic := Inputs.holistic i;
                   delta := Inputs.delta i;
                   autoUpdateTrackingPlan := Inputs.autoUpdate i;
                   overwriteExisting := Inputs.overwrite i;
                   comment := Inputs.comment i |};
     prDetails :=
       match payload_pull_request env with
       | Some pr => Some {| prNumber := number pr;
                            headSha := head_sha pr;
                            baseSha := base_sha pr |}
       | None => None
       end |}.

Definition validationEndpoint (i : Inputs.t) : string :=
  Inputs.apiUrl i ++ "/api/github-action/validate".

Definition request_headers (i : Inputs.t) : list (string * string) :=
  [("Authorization", "Bearer " ++ Inputs.apiKey i);
   ("Content-Type", "application/json");
   ("User-Agent", "AATX-GitHub-Action")].

(** Lines 8-166: the body of the [try] block. *)
Definition run_body (env : environment) : M unit :=
  i <- eval (collect_inputs env) ;;
  core_info ("Calling validation endpoint: " ++ validationEndpoint i) ;;
  result <- axios_post env (validationEndpoint i) (validationRequest env i)
              (request_headers i) ;;
  report env (Inputs.comment i) (Inputs.failOnInvalid i) result.

(** Lines 168-174: the [catch] block of [run]. *)
Definition run_catch (error : js_error) : M unit :=
  core_setFailed ("Action failed: " ++ message error) ;;
  match response error with
  | Some r =>
      core_error ("Response status: " ++ decimal (status r)) ;;
      core_error ("Response data: " ++ data_json r)
  | None => ret tt
  end.

(** Lines 5-175. *)
Definition run (env : environment) : M unit :=
  try_catch (run_body env) run_catch.

(** ** Observations on a run *)

Definition trace (env : environment) : list effect := snd (run env).

Definition is_SetFailed (e : effect) : bool :=
  match e with SetFailed _ => true | _ => false end.

(** The run is marked failed: [core.setFailed] makes the exit code 1. *)
Definition failed (t : list effect) : bool := existsb is_SetFailed t.

(** The step outputs that were set, in order. *)
Fixpoint outputs (t : list effect) : list (string * value) :=
  match t with
  | [] => []
  | SetOutput name v :: rest => (name, v) :: outputs rest
  | _ :: rest => outputs rest
  end.

(** The calls made to the repository-hosting API, in order. *)
Fixpoint review_calls (t : list effect) : list review_request :=
  match t with
  | [] => []
  | CreateReview request :: rest => request :: review_calls rest
  | _ :: rest => review_calls rest
  end.

Definition is_EnterPublisher (e : effect) : bool :=
  match e with EnterPublisher => true | _ => false end.

(** [addPrReviewComments] was called. *)
Definition publisher_invoked (t : list effect) : bool :=
  existsb is_EnterPublisher t.

Definition is_log (e : effect) : bool :=
  match e with Info _ | Warning _ | LogError _ => true | _ => false end.

(** The two effects every run performs once its inputs are collected. *)
Definition request_trace (env : environment) (i : Inputs.t) : list effect :=
  [Info ("Calling validation endpoint: " ++ validationEndpoint i);
   Post (validationEndpoint i) (validationRequest env i) (request_headers i)].

(** ** Input collection, stated declaratively *)

Definition boolean_inputs : list string :=
  ["holistic"; "delta"; "auto-update"; "overwrite"; "comment";
   "fail-on-invalid"].

(** The text of a boolean input is one of the six recognized tokens. *)
Definition recognized_boolean (text : string) : bool :=
  includes trueValue (trim text) || includes falseValue (trim text).

(** Input collection succeeds: both required inputs are supplied, every
    boolean input parses, and the repository identity is known. *)
Definition inputs_ok (env : environment) : bool :=
  negb (String.eqb (inputs env "api-key") "")
  && negb (String.eqb (inputs env "tracking-plan-id") "")
  && forallb (fun name => recognized_boolean (inputs env name)) boolean_inputs
  && match repo env with Some _ => true | None => false end.

(** The value of a boolean input that parses. *)
Definition boolean_input (env : environment) (name : string) : bool :=
  includes trueValue (trim (inputs env name)).

(** ** Well-formed payloads: the [ValidationResult] of the data model, every
    field but those of an event's identity and location optional *)

(** An optional field: left out, [null], or of the expected kind. *)
Definition absent_or (p : value -> bool) (v : value) : bool :=
  match v with JUndefined | JNull => true | _ => p v end.

Definition is_bool (v : value) : bool :=
  match v with JBool _ => true | _ => false end.

Definition is_string (v : value) : bool :=
  match v with JStr _ => true | _ => false end.

Definition is_count (v : value) : bool :=
  match v with JNum n => safe_integer n | _ => false end.

Definition is_object (v : value) : bool :=
  match v with JObj _ => true | _ => false end.

Definition is_array_of (p : value -> bool) (v : value) : bool :=
  match v with JArr items => forallb p items | _ => false end.

Definition statuses : list string := ["valid"; "invalid"; "missing"; "new"].

Definition is_status (v : value) : bool :=
  match v with JStr s => includes statuses s | _ => false end.

Definition wf_implementation (impl : value) : bool :=
  match impl with
  | JObj f =>
      is_string (lookup "path" f) && is_count (lookup "line" f)
      && absent_or is_string (lookup "code" f)
  | _ => false
  end.

Definition wf_event (e : value) : bool :=
  match e with
  | JObj f =>
      is_string (lookup "name" f) && is_status (lookup "status" f)
      && absent_or is_string (lookup "message" f)
      && absent_or (is_array_of wf_implementation) (lookup "implementation" f)
      && absent_or is_object (lookup "properties" f)
  | _ => false
  end.

Definition summary_fields : list string :=
  ["totalEvents"; "validEvents"; "invalidEvents"; "missingEvents";
   "newEvents"].

Definition wf_summary (s : value) : bool :=
  match s with
  | JObj f => forallb (fun k => absent_or is_count (lookup k f)) summary_fields
  | _ => false
  end.

Definition wf_metadata (m : value) : bool :=
  match m with
  | JObj f =>
      absent_or is_count (lookup "validationDuration" f)
      && absent_or is_string (lookup "agentVersion" f)
  | _ => false
  end.

Definition wf_result (r : value) : bool :=
  match r with
  | JObj f =>
      absent_or is_bool (lookup "valid" f)
      && absent_or wf_summary (lookup "summary" f)
      && absent_or (is_array_of wf_event) (lookup "events" f)
      && absent_or is_bool (lookup "trackingPlanUpdated" f)
      && absent_or wf_metadata (lookup "metadata" f)
  | _ => false
  end.

(** A non-null object in the sense of JavaScript: arrays are objects. *)
Definition non_null_object (v : value) : bool :=
  match v with JArr _ | JObj _ => true | _ => false end.

(** *** Reading a payload *)

(** The property [k] of [v], [undefined] when there is none. *)
Definition field (v : value) (k : string) : value :=
  match v with JObj f => lookup k f | _ => JUndefined end.

(** The events of a payload. *)
Definition events_of (r : value) : list value :=
  match field r "events" with JArr items => items | _ => [] end.

Definition has_status (status : string) (e : value) : bool :=
  strict_eq_string (field e "status") status.

(** A summary count, 0 when the summary or the field is absent. *)
Definition count_of (r : value) (k : string) : Z :=
  match field (field r "summary") k with JNum n => n | _ => 0%Z end.

(** A boolean field, false when absent. *)
Definition flag_of (r : value) (k : string) : bool :=
  match field r k with JBool b => b | _ => false end.

(** The implementation entries of an event. *)
Definition implementations (e : value) : list value :=
  match field e "implementation" with JArr items => items | _ => [] end.

Definition located (e : value) : bool :=
  match implementations e with [] => false | _ :: _ => true end.

Definition name_of (e : value) : string :=
  match field e "name" with JStr s => s | _ => "" end.

(** [sub] occurs in [s]. *)
Definition contains (s sub : string) : Prop :=
  exists before after, s = before ++ sub ++ after.

(** The message shown for an event: its own when it has a non-empty one,
    the default of its kind otherwise. *)
Definition shown_message (default : string) (e : value) : string :=
  match field e "message" with
  | JStr s => if String.eqb s "" then default else s
  | _ => default
  end.

(** The property list shown for an event: the names joined by a comma, or
    the marker [none] when the event has no [properties]. *)
Definition shown_properties (none : string) (e : value) : string :=
  match field e "properties" with
  | JObj f => join ", " (map fst f)
  | _ => none
  end.

(** What the specification asks of the comment [c] written for the event
    [e]: anchored at the first implementation location, with a body that
    shows the marker of the kind, the name, the message and the
    properties. *)
Definition describes (marker default none : string) (e : value)
  (c : review_comment) : Prop :=
  path c = field (hd JUndefined (implementations e)) "path"
  /\ line c = field (hd JUndefined (implementations e)) "line"
  /\ contains (body c) marker
  /\ contains (body c) (name_of e)
  /\ contains (body c) (shown_message default e)
  /\ contains (body c) (shown_properties none e).

(** The aggregate comment for missing events. *)
Definition is_aggregate (missing : list value) (c : review_comment) : Prop :=
  path c = JStr "README.md"
  /\ line c = JNum 1
  /\ forall e, In e missing -> contains (body c) (name_of e).

(** ** Properties of traces that survive sequencing *)

Definition only_logs (t : list effect) : Prop := forallb is_log t = true.
Definition no_failure (t : list effect) : Prop := failed t = false.
Definition no_outputs (t : list effect) : Prop := outputs t = [].
Definition no_publisher (t : list effect) : Prop := publisher_invoked t = false.
Definition no_review (t : list effect) : Prop := review_calls t = [].

(** If the publisher was called, the missing-token warning was logged. *)
Definition warns_when_invoked (t : list effect) : Prop :=
  publisher_invoked t = true ->
  In (Warning "GITHUB_TOKEN not available, skipping PR review comments") t.

(** A property of traces that holds of the empty trace and of the
    concatenation of two traces that have it. *)
Class TraceInvariant (Q : list effect -> Prop) : Prop := {
  inv_nil : Q [];
  inv_app : forall a b, Q a -> Q b -> Q (a ++ b)%list
}.

(** ** What the script computes on a well-formed payload *)

(** The seven outputs of a well-formed payload. *)
Definition expected_outputs (r : value) : list (string * value) :=
  [("valid", field r "valid");
   ("total_events", JNum (count_of r "totalEvents"));
   ("valid_events", JNum (count_of r "validEvents"));
   ("invalid_events", JNum (count_of r "invalidEvents"));
   ("missing_events", JNum (count_of r "missingEvents"));
   ("new_events", JNum (count_of r "newEvents"));
   ("tracking_plan_updated", JBool (flag_of r "trackingPlanUpdated"))].

(** The comment produced for a located event by one of the two templates. *)
Definition comment_for (title default label none : string) (e : value)
  : review_comment :=
  {| path := field (hd JUndefined (implementations e)) "path";
     line := field (hd JUndefined (implementations e)) "line";
     body := title ++ ": `" ++ name_of e ++ "`" ++ nl ++ nl
             ++ shown_message default e ++ nl ++ nl
             ++ "**" ++ label ++ "**: " ++ shown_properties none e |}.

Definition invalid_comment : value -> review_comment :=
  comment_for invalid_title invalid_default "Required Properties"
    "None specified".

Definition new_comment : value -> review_comment :=
  comment_for new_title new_default "Properties" "None detected".

Definition quoted_name (e : value) : string := "`" ++ name_of e ++ "`".

(** The single comment that stands for all missing events. *)
Definition aggregate_comment (missing : list value) : review_comment :=
  {| path := JStr "README.md";
     line := JNum 1;
     body := "⚠️ **Missing Events**: The following events are defined in the tracking plan but not found in the codebase:"
             ++ nl ++ nl ++ join ", " (map quoted_name missing) ++ nl ++ nl
             ++ "Please implement these events or remove them from the tracking plan." |}.

Definition invalid_events (r : value) : list value :=
  filter (has_status "invalid") (events_of r).
Definition missing_events (r : value) : list value :=
  filter (has_status "missing") (events_of r).
Definition new_events (r : value) : list value :=
  filter (has_status "new") (events_of r).

(** One comment per located invalid event, then one per located new event. *)
Definition event_comments (r : value) : list review_comment :=
  (map invalid_comment (filter located (invalid_events r))
   ++ map new_comment (filter located (new_events r)))%list.

(** The comment list of the review for a well-formed payload. *)
Definition expected_comments (r : value) : list review_comment :=
  (event_comments r
   ++ match missing_events r with
      | [] => []
      | _ :: _ => [aggregate_comment (missing_events r)]
      end)%list.

(** [REQUEST_CHANGES] when the invalid-events count is positive. *)
Definition expected_disposition (r : value) : review_event :=
  if Z.ltb 0 (count_of r "invalidEvents") then REQUEST_CHANGES else COMMENT.

(** What follows the [createReview] call in the trace: the confirmation, or
    the warning of the publisher's own [catch] block. *)
Definition review_outcome (env : environment) (n : nat) : list effect :=
  match review_reply env with
  | None =>
      [Info ("Created PR review with " ++ decimal (Z.of_nat n) ++ " comments")]
  | Some e =>
      Warning ("Failed to add PR review comments: " ++ message e)
      :: match response e with
         | Some r => [LogError ("GitHub API response: " ++ data_json r)]
         | None => []
         end
  end.

Definition output_effects (r : value) : list effect :=
  map (fun o => SetOutput (fst o) (snd o)) (expected_outputs r).

(** ** Sample runs *)

Definition sample_inputs (name : string) : string :=
  if String.eqb name "api-key" then "secret"
  else if String.eqb name "tracking-plan-id" then "plan-1"
  else if String.eqb name "api-url" then "https://aatx.example"
  else if String.eqb name "comment" then "true"
  else if String.eqb name "fail-on-invalid" then "true"
  else "false".

(** A pull-request run with every input supplied, a token, and a hosting
    API that accepts the review. *)
Definition sample_env (reply : js_error + value) : environment :=
  {| inputs := sample_inputs;
     repo := Some ("octo", "shop");
     payload_pull_request :=
       Some {| number := 7; head_sha := "abc123"; base_sha := "def456" |};
     GITHUB_TOKEN := Some "ghs_token";
     validation_reply := reply;
     review_reply := None |}.

Definition sample_collected : Inputs.t :=
  {| Inputs.apiKey := "secret";
     Inputs.trackingPlanId := "plan-1";
     Inputs.apiUrl := "https://aatx.example";
     Inputs.holistic := false;
     Inputs.delta := false;
     Inputs.autoUpdate := false;
     Inputs.overwrite := false;
     Inputs.comment := true;
     Inputs.failOnInvalid := true;
     Inputs.owner := "octo";
     Inputs.repo := "shop" |}.

(** The same run with fail-on-invalid switched off. *)
Definition lenient_env (reply : js_error + value) : environment :=
  {| inputs := fun name =>
                 if String.eqb name "fail-on-invalid" then "false"
                 else sample_inputs name;
     repo := Some ("octo", "shop");
     payload_pull_request :=
       Some {| number := 7; head_sha := "abc123"; base_sha := "def456" |};
     GITHUB_TOKEN := Some "ghs_token";
     validation_reply := reply;
     review_reply := None |}.

(** The rejection of scenario 5: status 500 with an error body. *)
Definition server_error : js_error :=
  {| message := "Request failed with status code 500";
     response := Some {| status := 500;
                         data_json := "{'error':'bad request'}" |} |}.

Definition is_Warning (e : effect) : bool :=
  match e with Warning _ => true | _ => false end.

(** The same run with other publishing conditions. *)
Definition with_publishing (env : environment) (token : option string)
  (reply : option js_error) : environment :=
  {| inputs := inputs env;
     repo := repo env;
     payload_pull_request := payload_pull_request env;
     GITHUB_TOKEN := token;
     validation_reply := validation_reply env;
     review_reply := reply |}.

(** The same run triggered by something else than a pull request. *)
Definition without_pull_request (env : environment) : environment :=
  {| inputs := inputs env;
     repo := repo env;
     payload_pull_request := None;
     GITHUB_TOKEN := GITHUB_TOKEN env;
     validation_reply := validation_reply env;
     review_reply := review_reply env |}.

(** Scenario 1 of the specification. *)
Definition all_valid_result : value :=
  JObj [("valid", JBool true);
        ("summary", JObj [("totalEvents", JNum 5); ("validEvents", JNum 5);
                          ("invalidEvents", JNum 0); ("missingEvents", JNum 0);
                          ("newEvents", JNum 0)]);
        ("events", JArr [])].

(** A payload that is an object but whose [events] is a number. *)
Definition ill_typed_result : value :=
  JObj [("valid", JBool true); ("events", JNum 5)].

Definition missing_event (name : string) : value :=
  JObj [("name", JStr name); ("status", JStr "missing")].

(** Scenario 6 of the specification. *)
Definition three_missing_result : value :=
  JObj [("valid", JBool false);
        ("summary", JObj [("totalEvents", JNum 3); ("missingEvents", JNum 3)]);
        ("events", JArr [missing_event "signup"; missing_event "login";
                         missing_event "checkout"])].

(** Scenario 2 of the specification, with a new event besides. *)
Definition mixed_result : value :=
  JObj [("valid", JBool false);
        ("summary", JObj [("totalEvents", JNum 3); ("validEvents", JNum 1);
                          ("invalidEvents", JNum 1); ("newEvents", JNum 1)]);
        ("events",
         JArr [JObj [("name", JStr "purchase"); ("status", JStr "invalid");
                     ("message", JStr "price must be a number");
                     ("implementation",
                      JArr [JObj [("path", JStr "a.js"); ("line", JNum 10)];
                            JObj [("path", JStr "b.js"); ("line", JNum 3)]]);
                     ("properties", JObj [("price", JStr "number");
                                          ("sku", JStr "string")])];
               JObj [("name", JStr "page_view"); ("status", JStr "valid")];
               JObj [("name", JStr "share"); ("status", JStr "new");
                     ("implementation",
                      JArr [JObj [("path", JStr "c.js"); ("line", JNum 42);
                                  ("code", JStr "  track('share')  ")]])]])].

(** ** Vocabulary of the claims *)

(** The failure recorded when the reply is not an object. *)
Definition malformed_response_failure : effect :=
  SetFailed "Action failed: Invalid response format from validation API".

Definition token_warning : effect :=
  Warning "GITHUB_TOKEN not available, skipping PR review comments".

(** The validation call was rejected (transport failure or error status). *)
Definition call_fails (env : environment) : bool :=
  match validation_reply env with inl _ => true | inr _ => false end.

(** The validation call returned a body that is not a non-null object. *)
Definition malformed_body (env : environment) : bool :=
  match validation_reply env with
  | inl _ => false
  | inr r => negb (non_null_object r)
  end.

(** The validation call returned a body whose [valid] is false or absent. *)
Definition result_invalid (env : environment) : bool :=
  match validation_reply env with
  | inl _ => false
  | inr r => negb (truthy (field r "valid"))
  end.

(** A returned object is a well-formed [ValidationResult]. *)
Definition reply_well_typed (env : environment) : bool :=
  match validation_reply env with
  | inl _ => true
  | inr r => negb (non_null_object r) || wf_result r
  end.


(** ** Further observations and sample values *)

(** The validation requests sent, in order: address, body and headers. *)
Fixpoint posts (t : list effect)
  : list (string * validation_request * list (string * string)) :=
  match t with
  | [] => []
  | Post url request headers :: rest => (url, request, headers) :: posts rest
  | _ :: rest => posts rest
  end.

Definition no_posts (t : list effect) : Prop := posts t = [].

Definition is_Info (e : effect) : bool :=
  match e with Info _ => true | _ => false end.

Definition only_warnings (t : list effect) : Prop :=
  forallb is_Warning t = true.

Definition only_infos (t : list effect) : Prop := forallb is_Info t = true.

(** What input collection yields when it succeeds, read off the
    environment. *)
Definition expected_inputs (env : environment) : Inputs.t :=
  {| Inputs.apiKey := trim (inputs env "api-key");
     Inputs.trackingPlanId := trim (inputs env "tracking-plan-id");
     Inputs.apiUrl := trim (inputs env "api-url");
     Inputs.holistic := boolean_input env "holistic";
     Inputs.delta := boolean_input env "delta";
     Inputs.autoUpdate := boolean_input env "auto-update";
     Inputs.overwrite := boolean_input env "overwrite";
     Inputs.comment := boolean_input env "comment";
     Inputs.failOnInvalid := boolean_input env "fail-on-invalid";
     Inputs.owner := match repo env with Some r => fst r | None => "" end;
     Inputs.repo := match repo env with Some r => snd r | None => "" end |}.

(** A run in which the [api-key] input is not supplied. *)
Definition keyless_env (reply : js_error + value) : environment :=
  {| inputs := fun name =>
                 if String.eqb name "api-key" then "" else sample_inputs name;
     repo := Some ("octo", "shop");
     payload_pull_request := None;
     GITHUB_TOKEN := Some "ghs_token";
     validation_reply := reply;
     review_reply := None |}.

(** A rejection of the review by the hosting API. *)
Definition api_error : js_error :=
  {| message := "Unprocessable Entity";
     response := Some {| status := 422;
                         data_json := "{'message':'Path could not be resolved'}" |} |}.

(** A payload whose list of events holds a [null]. *)
Definition null_event_result : value :=
  JObj [("valid", JBool false); ("events", JArr [JNull])].

(** A line that opens a section or an event: it starts with a line break. *)
Definition opens_entry (e : effect) : bool :=
  match e with
  | Warning (String c _) | Info (String c _) => Ascii.eqb c "010"%char
  | _ => false
  end.

(** The message of the terminal failure for a well-formed payload. *)
Definition failure_message (r : value) : string :=
  let counts :=
    "❌ Validation failed with " ++ decimal (count_of r "invalidEvents")
    ++ " invalid events and " ++ decimal (count_of r "missingEvents")
    ++ " missing events" in
  let with_invalid :=
    if Z.ltb 0 (count_of r "invalidEvents")
    then counts ++ nl ++ nl ++ "Invalid events: "
         ++ join ", " (map name_of (invalid_events r))
    else counts in
  let with_missing :=
    if Z.ltb 0 (count_of r "missingEvents")
    then with_invalid ++ nl ++ nl ++ "Missing events: "
         ++ join ", " (map name_of (missing_events r))
    else with_invalid in
  with_missing ++ nl ++ nl
  ++ "See the detailed output above for specific issues and locations.".

(** An [events] field on which the status filters throw: present but not
    an array, or an array that holds a [null]. *)
Definition bad_events (v : value) : bool :=
  match v with
  | JUndefined | JNull => false
  | JArr items => existsb nullish items
  | _ => true
  end.

(** The lines that open the events of a section: one per event, numbered
    from [first + 1] in the order of the list. *)
Definition numbered (line : string -> effect) (first : nat)
  (events : list value) : list effect :=
  map (fun p => line (nl ++ decimal (Z.of_nat (fst p) + 1) ++ ". Event: "
                      ++ name_of (snd p)))
      (combine (seq first (length events)) events).

Definition no_entry (t : list effect) : Prop := filter opens_entry t = [].


(** * Lemmas *)

Local Arguments String.append : simpl never.
Local Arguments decimal : simpl never.
Local Arguments trim : simpl never.
Local Arguments join : simpl never.

Lemma outputs_app (a b : list effect) :
  outputs (a ++ b) = (outputs a ++ outputs b)%list.
Proof.
  induction a as [|e a IH]; simpl; [reflexivity|].
  destruct e; simpl; rewrite ?IH; reflexivity.
Qed.

Lemma review_calls_app (a b : list effect) :
  review_calls (a ++ b) = (review_calls a ++ review_calls b)%list.
Proof.
  induction a as [|e a IH]; simpl; [reflexivity|].
  destruct e; simpl; rewrite ?IH; reflexivity.
Qed.

Lemma failed_app (a b : list effect) :
  failed (a ++ b) = failed a || failed b.
Proof. apply existsb_app. Qed.

Lemma publisher_invoked_app (a b : list effect) :
  publisher_invoked (a ++ b) = publisher_invoked a || publisher_invoked b.
Proof. apply existsb_app. Qed.

#[local] Instance only_logs_invariant : TraceInvariant only_logs.
Proof.
  split; unfold only_logs; [reflexivity|].
  intros a b Ha Hb. rewrite forallb_app, Ha, Hb. reflexivity.
Qed.

#[local] Instance no_failure_invariant : TraceInvariant no_failure.
Proof.
  split; unfold no_failure; [reflexivity|].
  intros a b Ha Hb. rewrite failed_app, Ha, Hb. reflexivity.
Qed.

#[local] Instance no_outputs_invariant : TraceInvariant no_outputs.
Proof.
  split; unfold no_outputs; [reflexivity|].
  intros a b Ha Hb. rewrite outputs_app, Ha, Hb. reflexivity.
Qed.

#[local] Instance no_publisher_invariant : TraceInvariant no_publisher.
Proof.
  split; unfold no_publisher; [reflexivity|].
  intros a b Ha Hb. rewrite publisher_invoked_app, Ha, Hb. reflexivity.
Qed.

#[local] Instance no_review_invariant : TraceInvariant no_review.
Proof.
  split; unfold no_review; [reflexivity|].
  intros a b Ha Hb. rewrite review_calls_app, Ha, Hb. reflexivity.
Qed.

#[local] Instance warns_when_invoked_invariant :
  TraceInvariant warns_when_invoked.
Proof.
  split; unfold warns_when_invoked; [discriminate|].
  intros a b Ha Hb. rewrite publisher_invoked_app, orb_true_iff, in_app_iff.
  tauto.
Qed.

Lemma only_logs_no_failure t : only_logs t -> no_failure t.
Proof.
  unfold only_logs, no_failure, failed. induction t as [|e t IH]; simpl.
  - reflexivity.
  - intros H. apply andb_prop in H. destruct H as [He Ht].
    rewrite (IH Ht). destruct e; simpl in *; congruence.
Qed.

Lemma only_logs_no_outputs t : only_logs t -> no_outputs t.
Proof.
  unfold only_logs, no_outputs. induction t as [|e t IH]; simpl.
  - reflexivity.
  - intros H. apply andb_prop in H. destruct H as [He Ht].
    destruct e; simpl in *; try discriminate; auto.
Qed.

Lemma only_logs_no_publisher t : only_logs t -> no_publisher t.
Proof.
  unfold only_logs, no_publisher, publisher_invoked.
  induction t as [|e t IH]; simpl.
  - reflexivity.
  - intros H. apply andb_prop in H. destruct H as [He Ht].
    rewrite (IH Ht). destruct e; simpl in *; congruence.
Qed.

Lemma only_logs_no_review t : only_logs t -> no_review t.
Proof.
  unfold only_logs, no_review. induction t as [|e t IH]; simpl.
  - reflexivity.
  - intros H. apply andb_prop in H. destruct H as [He Ht].
    destruct e; simpl in *; try discriminate; auto.
Qed.

(** *** Sequencing *)

Lemma bind_Ret {A B} (a : A) (t : list effect) (k : A -> M B) :
  bind (Ret a, t) k = (fst (k a), (t ++ snd (k a))%list).
Proof. unfold bind. destruct (k a); reflexivity. Qed.

Lemma bind_eval_Ret {A B} (a : A) (k : A -> M B) :
  bind (eval (Ret a)) k = k a.
Proof. unfold bind, eval. destruct (k a); reflexivity. Qed.

Lemma bind_emit {B} (e : effect) (k : unit -> M B) :
  bind (emit e) k = (fst (k tt), e :: snd (k tt)).
Proof. unfold emit. rewrite bind_Ret. reflexivity. Qed.

Lemma bind_ok {A B} (m : M A) (a : A) (k : A -> M B) :
  fst m = Ret a -> bind m k = (fst (k a), (snd m ++ snd (k a))%list).
Proof. destruct m as [o t]. simpl. intros ->. apply bind_Ret. Qed.

Section Invariants.
Context (Q : list effect -> Prop) `{TraceInvariant Q}.

Lemma inv_ret {A} (a : A) : Q (snd (ret a)).
Proof. apply inv_nil. Qed.

Lemma inv_eval {A} (o : outcome A) : Q (snd (eval o)).
Proof. apply inv_nil. Qed.

Lemma inv_throw {A} (e : js_error) : Q (snd (@throw A e)).
Proof. apply inv_nil. Qed.

Lemma inv_emit (e : effect) : Q [e] -> Q (snd (emit e)).
Proof. trivial. Qed.

Lemma inv_bind {A B} (m : M A) (k : A -> M B) :
  Q (snd m) -> (forall a, Q (snd (k a))) -> Q (snd (bind m k)).
Proof.
  intros Hm Hk. destruct m as [[a| |] t]; simpl in *; trivial.
  specialize (Hk a). destruct (k a) as [o t']. simpl in *.
  apply inv_app; assumption.
Qed.

Lemma inv_try_catch {A} (body : M A) (handler : js_error -> M A) :
  Q (snd body) -> (forall e, Q (snd (handler e))) ->
  Q (snd (try_catch body handler)).
Proof.
  intros Hm Hk. destruct body as [[a|e|] t]; simpl in *; trivial.
  specialize (Hk e). destruct (handler e) as [o t']. simpl in *.
  apply inv_app; assumption.
Qed.

Lemma inv_when (b : bool) (m : M unit) : Q (snd m) -> Q (snd (when b m)).
Proof. destruct b; simpl; [trivial | intros _; apply inv_nil]. Qed.

Lemma inv_forEach {A} (f : A -> nat -> M unit) (l : list A) :
  (forall x i, Q (snd (f x i))) -> forall i, Q (snd (forEach f l i)).
Proof.
  intros Hf. induction l as [|x l IH]; intros i; simpl.
  - apply inv_nil.
  - apply inv_bind; [apply Hf | intros _; apply IH].
Qed.
End Invariants.

(** Breaks a goal [Q (snd m)] down along the structure of [m]. *)
Ltac trace_inv_for Q :=
  unfold core_info, core_warning, core_error, core_setOutput, core_setFailed;
  repeat first
    [ assumption
    | apply (inv_ret Q)
    | apply (inv_eval Q)
    | apply (inv_throw Q)
    | apply (inv_emit Q);
      first [ reflexivity
            | let H := fresh in intros H; cbn in H; discriminate H ]
    | apply (inv_when Q)
    | apply (inv_forEach Q); intros ? ?
    | apply (inv_bind Q); [ | intros ?]
    | apply (inv_try_catch Q); [ | intros ?]
    | match goal with
      | |- _ (snd (if ?b then _ else _)) => destruct b
      | |- _ (snd (match ?o with Some _ => _ | None => _ end)) => destruct o
      | |- _ (snd (match ?o with inl _ => _ | inr _ => _ end)) => destruct o
      end ].

Ltac trace_inv :=
  match goal with
  | |- ?Q (snd _) => trace_inv_for Q
  end.

(** The logging helpers only log, whatever they are given. *)

Lemma log_message_logs log label event :
  (forall s, only_logs (snd (log s))) ->
  only_logs (snd (log_message log label event)).
Proof. intros Hlog. unfold log_message. trace_inv. apply Hlog. Qed.

Lemma log_location_logs log event :
  (forall s, only_logs (snd (log s))) ->
  only_logs (snd (log_location log event)).
Proof. intros Hlog. unfold log_location. trace_inv; apply Hlog. Qed.

Lemma log_properties_logs log label event :
  (forall s, only_logs (snd (log s))) ->
  only_logs (snd (log_properties log label event)).
Proof. intros Hlog. unfold log_properties. trace_inv. apply Hlog. Qed.

Lemma core_warning_logs s : only_logs (snd (core_warning s)).
Proof. reflexivity. Qed.

Lemma core_info_logs s : only_logs (snd (core_info s)).
Proof. reflexivity. Qed.

Lemma log_invalid_events_logs l : only_logs (snd (log_invalid_events l)).
Proof.
  unfold log_invalid_events. trace_inv;
    first [ apply core_warning_logs
          | apply log_message_logs, core_warning_logs
          | apply log_location_logs, core_warning_logs
          | apply log_properties_logs, core_warning_logs ].
Qed.

Lemma log_missing_events_logs l : only_logs (snd (log_missing_events l)).
Proof.
  unfold log_missing_events. trace_inv;
    first [ apply core_warning_logs
          | apply log_message_logs, core_warning_logs
          | apply log_properties_logs, core_warning_logs ].
Qed.

Lemma log_new_events_logs l : only_logs (snd (log_new_events l)).
Proof.
  unfold log_new_events. trace_inv;
    first [ apply core_info_logs
          | apply log_location_logs, core_info_logs
          | apply log_properties_logs, core_info_logs ].
Qed.

Lemma log_summary_logs r : only_logs (snd (log_summary r)).
Proof. unfold log_summary. trace_inv; apply core_info_logs. Qed.

(** *** Input collection *)

Lemma getBooleanInput_spec env name :
  getBooleanInput env name =
  if recognized_boolean (inputs env name)
  then Ret (boolean_input env name)
  else Throw (Error ("Input does not meet YAML 1.2 " ++ dquote
                     ++ "Core Schema" ++ dquote ++ " specification: "
                     ++ name ++ nl ++ "Support boolean input list: "
                     ++ "`true | True | TRUE | false | False | FALSE`")).
Proof.
  unfold getBooleanInput, getInput, recognized_boolean, boolean_input.
  cbn [andb obind].
  destruct (includes trueValue (trim (inputs env name))); [reflexivity|].
  destruct (includes falseValue (trim (inputs env name))); reflexivity.
Qed.

Lemma collect_inputs_ok env :
  inputs_ok env = true ->
  exists i, collect_inputs env = Ret i
            /\ Inputs.comment i = boolean_input env "comment"
            /\ Inputs.failOnInvalid i = boolean_input env "fail-on-invalid".
Proof.
  unfold inputs_ok, boolean_inputs. cbn [forallb]. intros H.
  rewrite !andb_true_iff in H.
  destruct H as (((Ha & Hb) & (H1 & H2 & H3 & H4 & H5 & H6 & _)) & Hr).
  unfold collect_inputs. rewrite !getBooleanInput_spec.
  unfold getInput at 1 2. cbn [andb].
  destruct (String.eqb (inputs env "api-key") ""); [discriminate|].
  destruct (String.eqb (inputs env "tracking-plan-id") ""); [discriminate|].
  cbn [obind].
  repeat match goal with
         | Hb : recognized_boolean ?x = true |- _ => rewrite Hb; clear Hb
         end.
  unfold getInput, context_repo. cbn [andb obind].
  destruct (repo env) as [r|]; [|discriminate].
  eexists. split; [reflexivity|]. split; reflexivity.
Qed.

Lemma collect_inputs_fails env :
  inputs_ok env = false -> exists e, collect_inputs env = Throw e.
Proof.
  unfold inputs_ok, boolean_inputs. cbn [forallb]. intros H.
  unfold collect_inputs. rewrite !getBooleanInput_spec.
  unfold getInput, context_repo. cbn [andb].
  destruct (String.eqb (inputs env "api-key") "");
    [eexists; reflexivity|].
  destruct (String.eqb (inputs env "tracking-plan-id") "");
    [eexists; reflexivity|].
  cbn [obind].
  repeat match goal with
         | |- context [recognized_boolean ?x] =>
             destruct (recognized_boolean x);
             [cbn [obind] | eexists; reflexivity]
         end.
  destruct (repo env); [discriminate | eexists; reflexivity].
Qed.

Lemma collect_inputs_supported env : collect_inputs env <> Unsupported.
Proof.
  destruct (inputs_ok env) eqn:E.
  - destruct (collect_inputs_ok env E) as (i & -> & _). discriminate.
  - destruct (collect_inputs_fails env E) as (e & ->). discriminate.
Qed.

(** *** The shape of a run *)

Lemma run_catch_ok e : fst (run_catch e) = Ret tt.
Proof. unfold run_catch. destruct (response e); reflexivity. Qed.

Lemma run_catch_trace e :
  exists logs, snd (run_catch e)
               = SetFailed ("Action failed: " ++ message e) :: logs
               /\ only_logs logs.
Proof.
  unfold run_catch. destruct (response e); eexists; split; reflexivity.
Qed.

Lemma run_inputs_fail env e :
  collect_inputs env = Throw e -> run env = run_catch e.
Proof.
  intros E. unfold run, run_body. rewrite E. cbn [eval bind try_catch].
  destruct (run_catch e); reflexivity.
Qed.

Lemma run_call_fails env i e :
  collect_inputs env = Ret i -> validation_reply env = inl e ->
  run env = (fst (run_catch e), (request_trace env i ++ snd (run_catch e))%list).
Proof.
  intros E R. unfold run, run_body. rewrite E, bind_eval_Ret.
  unfold core_info, axios_post. rewrite R.
  cbn [emit throw bind try_catch app].
  destruct (run_catch e); reflexivity.
Qed.

Lemma run_call_returns env i r :
  collect_inputs env = Ret i -> validation_reply env = inr r ->
  run env =
  let after :=
    try_catch (report env (Inputs.comment i) (Inputs.failOnInvalid i) r)
      run_catch in
  (fst after, (request_trace env i ++ snd after)%list).
Proof.
  intros E R. unfold run, run_body. rewrite E, bind_eval_Ret.
  unfold core_info, axios_post. rewrite R.
  cbn [emit ret bind try_catch app].
  destruct (report env (Inputs.comment i) (Inputs.failOnInvalid i) r)
    as [[[]|e|] t]; cbn [try_catch fst snd app]; try reflexivity.
  destruct (run_catch e); reflexivity.
Qed.

(** *** Well-formed payloads evaluate without exceptions *)

Lemma fst_bind_ok {A B} (m : M A) (a : A) (k : A -> M B) :
  fst m = Ret a -> fst (bind m k) = fst (k a).
Proof. intros E. rewrite (bind_ok m a k E). reflexivity. Qed.

Lemma when_ok (b : bool) (m : M unit) :
  fst m = Ret tt -> fst (when b m) = Ret tt.
Proof. destruct b; simpl; trivial. Qed.

Lemma forEach_ok {A} (f : A -> nat -> M unit) (l : list A) :
  (forall x i, In x l -> fst (f x i) = Ret tt) ->
  forall i, fst (forEach f l i) = Ret tt.
Proof.
  induction l as [|x l IH]; intros Hf i; simpl forEach; [reflexivity|].
  rewrite (fst_bind_ok _ tt); [|apply Hf; left; reflexivity].
  apply IH. intros y j Hy. apply Hf. right. exact Hy.
Qed.

Lemma wf_result_object r :
  wf_result r = true -> exists f, r = JObj f.
Proof. destruct r; try discriminate. eexists; reflexivity. Qed.

Lemma get_object f k : get (JObj f) k = Ret (field (JObj f) k).
Proof. reflexivity. Qed.

Lemma wf_result_summary r :
  wf_result r = true -> absent_or wf_summary (field r "summary") = true.
Proof.
  destruct r; try discriminate. simpl. rewrite !andb_true_iff. tauto.
Qed.

Lemma wf_summary_field s k :
  absent_or wf_summary s = true -> In k summary_fields ->
  get_opt s k = Ret (field s k)
  /\ absent_or is_count (field s k) = true.
Proof.
  intros W Hk. destruct s; try discriminate;
    cbn [absent_or wf_summary get_opt nullish get field] in *;
    try (split; reflexivity).
  split; [reflexivity|]. rewrite forallb_forall in W. apply W, Hk.
Qed.

Lemma count_safe r k :
  wf_result r = true -> In k summary_fields ->
  safe_integer (count_of r k) = true.
Proof.
  intros W Hk. apply wf_result_summary in W.
  destruct (wf_summary_field _ k W Hk) as [_ C].
  unfold count_of. destruct (field (field r "summary") k); try reflexivity.
  exact C.
Qed.

Lemma summary_or_0_wf r k :
  wf_result r = true -> In k summary_fields ->
  summary_or_0 r k = Ret (JNum (count_of r k)).
Proof.
  intros W Hk. destruct (wf_result_object r W) as [f ->].
  apply wf_result_summary in W.
  destruct (wf_summary_field _ k W Hk) as [G C].
  unfold summary_or_0. rewrite get_object. cbn [obind]. rewrite G.
  cbn [obind]. unfold count_of, or_else.
  destruct (field (field (JObj f) "summary") k); try discriminate;
    try reflexivity.
  simpl. destruct (Z.eqb_spec n 0); subst; reflexivity.
Qed.

Lemma count_text_wf r k :
  wf_result r = true -> In k summary_fields ->
  count_text r k = Ret (decimal (count_of r k)).
Proof.
  intros W Hk. unfold count_text. rewrite (summary_or_0_wf r k W Hk).
  cbn [obind to_string]. rewrite (count_safe r k W Hk). reflexivity.
Qed.

Ltac in_fields := unfold summary_fields; simpl; tauto.

Lemma wf_result_updated r :
  wf_result r = true ->
  or_else (field r "trackingPlanUpdated") (JBool false)
  = JBool (flag_of r "trackingPlanUpdated").
Proof.
  destruct r; try discriminate. simpl. rewrite !andb_true_iff.
  intros ((((_ & _) & _) & U) & _). unfold flag_of, or_else. simpl.
  destruct (lookup "trackingPlanUpdated" fields); try discriminate;
    try reflexivity.
  destruct b; reflexivity.
Qed.

Lemma set_outputs_wf r :
  wf_result r = true ->
  set_outputs r = (Ret tt, map (fun o => SetOutput (fst o) (snd o))
                             (expected_outputs r)).
Proof.
  intros W. unfold set_outputs.
  rewrite !summary_or_0_wf by (trivial; in_fields).
  destruct (wf_result_object r W) as [f ->].
  rewrite !get_object, !bind_eval_Ret.
  rewrite (wf_result_updated _ W). reflexivity.
Qed.

Lemma log_summary_ok r : wf_result r = true -> fst (log_summary r) = Ret tt.
Proof.
  intros W. unfold log_summary.
  rewrite !count_text_wf by (trivial; in_fields).
  destruct (wf_result_object r W) as [f ->].
  rewrite !get_object, !bind_eval_Ret.
  destruct (truthy (field (JObj f) "trackingPlanUpdated")); reflexivity.
Qed.

(** *** Events *)

Lemma wf_event_fields e :
  wf_event e = true ->
  exists f, e = JObj f
    /\ is_string (lookup "name" f) = true
    /\ is_status (lookup "status" f) = true
    /\ absent_or is_string (lookup "message" f) = true
    /\ absent_or (is_array_of wf_implementation) (lookup "implementation" f)
       = true
    /\ absent_or is_object (lookup "properties" f) = true.
Proof.
  destruct e; try discriminate. cbn [wf_event]. rewrite !andb_true_iff.
  intros ((((Hn & Hs) & Hm) & Hi) & Hp). eexists. repeat split; eassumption.
Qed.

Lemma wf_implementation_fields impl :
  wf_implementation impl = true ->
  exists f, impl = JObj f
    /\ is_string (lookup "path" f) = true
    /\ is_count (lookup "line" f) = true
    /\ absent_or is_string (lookup "code" f) = true.
Proof.
  destruct impl; try discriminate. cbn [wf_implementation].
  rewrite !andb_true_iff.
  intros ((Hp & Hl) & Hc). eexists. repeat split; eassumption.
Qed.

Lemma wf_result_events r :
  wf_result r = true -> forallb wf_event (events_of r) = true.
Proof.
  destruct r; try discriminate. cbn [wf_result]. rewrite !andb_true_iff.
  intros ((((_ & _) & E) & _) & _). unfold events_of. cbn [field].
  destruct (lookup "events" fields); try reflexivity. exact E.
Qed.

Lemma filterM_status items status :
  forallb wf_event items = true ->
  filterM (fun e => obind (get e "status")
                      (fun s => Ret (strict_eq_string s status))) items
  = Ret (filter (has_status status) items).
Proof.
  induction items as [|e items IH]; intros W; [reflexivity|].
  cbn [forallb] in W. apply andb_prop in W. destruct W as [We Wi].
  destruct (wf_event_fields e We) as (f & -> & _).
  cbn [filterM filter]. rewrite (IH Wi). reflexivity.
Qed.

Lemma filter_by_status_wf r status :
  wf_result r = true ->
  filter_by_status (field r "events") status
  = Ret (filter (has_status status) (events_of r)).
Proof.
  intros W. pose proof (wf_result_events r W) as E.
  destruct r; try discriminate. cbn [wf_result] in W.
  rewrite !andb_true_iff in W. destruct W as ((((_ & _) & A) & _) & _).
  unfold events_of in *. cbn [field] in *.
  destruct (lookup "events" fields); try discriminate; try reflexivity.
  cbn [filter_by_status]. apply filterM_status, E.
Qed.

Lemma filter_wf status items :
  forallb wf_event items = true ->
  forallb wf_event (filter (has_status status) items) = true.
Proof.
  rewrite !forallb_forall. intros W e He. apply filter_In in He.
  apply W, He.
Qed.

Lemma event_heading_wf e index :
  wf_event e = true ->
  event_heading e index
  = Ret (nl ++ decimal (Z.of_nat index + 1) ++ ". Event: " ++ name_of e).
Proof.
  intros W. destruct (wf_event_fields e W) as (f & -> & Hn & _).
  unfold event_heading, name_of. cbn [get field obind].
  destruct (lookup "name" f); try discriminate. reflexivity.
Qed.

Lemma has_implementation_wf e :
  wf_event e = true -> has_implementation e = Ret (located e).
Proof.
  intros W. destruct (wf_event_fields e W) as (f & -> & _ & _ & _ & Hi & _).
  unfold has_implementation, located, implementations. cbn [get field obind].
  destruct (lookup "implementation" f); try discriminate; try reflexivity.
  cbn [truthy get String.eqb Ascii.eqb Bool.eqb obind gt0].
  destruct items; reflexivity.
Qed.

Lemma first_implementation_wf e :
  wf_event e = true ->
  first_implementation e = Ret (hd JUndefined (implementations e)).
Proof.
  intros W. destruct (wf_event_fields e W) as (f & -> & _ & _ & _ & Hi & _).
  unfold first_implementation, implementations. cbn [get field obind].
  destruct (lookup "implementation" f); try discriminate; reflexivity.
Qed.

Lemma located_wf e :
  wf_event e = true -> located e = true ->
  wf_implementation (hd JUndefined (implementations e)) = true.
Proof.
  intros W L. destruct (wf_event_fields e W) as (f & -> & _ & _ & _ & Hi & _).
  unfold located, implementations in *. cbn [field] in *.
  destruct (lookup "implementation" f); try discriminate.
  destruct items; [discriminate|]. cbn [absent_or is_array_of forallb] in Hi.
  apply andb_prop in Hi. apply Hi.
Qed.

Section LogOk.
Variable log : string -> M unit.
Hypothesis log_ok : forall s, fst (log s) = Ret tt.

Lemma log_message_ok label e :
  wf_event e = true -> fst (log_message log label e) = Ret tt.
Proof.
  intros W. destruct (wf_event_fields e W) as (f & -> & _ & _ & Hm & _).
  unfold log_message. rewrite get_object, bind_eval_Ret. cbn [field].
  destruct (lookup "message" f); try discriminate; try reflexivity.
  apply when_ok. cbn [to_string]. rewrite bind_eval_Ret. apply log_ok.
Qed.

Lemma log_location_ok e :
  wf_event e = true -> fst (log_location log e) = Ret tt.
Proof.
  intros W. unfold log_location.
  rewrite (has_implementation_wf e W), bind_eval_Ret.
  destruct (located e) eqn:L; [|reflexivity]. cbn [when].
  rewrite (first_implementation_wf e W), bind_eval_Ret.
  destruct (wf_implementation_fields _ (located_wf e W L))
    as (fi & -> & Hp & Hl & Hc).
  rewrite !get_object. cbn [field obind].
  destruct (lookup "path" fi); try discriminate.
  destruct (lookup "line" fi); try discriminate.
  cbn [to_string is_count] in *. rewrite Hl, !bind_eval_Ret.
  rewrite (fst_bind_ok _ tt) by apply log_ok.
  destruct (lookup "code" fi); try discriminate; try reflexivity.
  apply when_ok. cbn [call_trim]. rewrite bind_eval_Ret. apply log_ok.
Qed.

Lemma log_properties_ok label e :
  wf_event e = true -> fst (log_properties log label e) = Ret tt.
Proof.
  intros W. destruct (wf_event_fields e W) as (f & -> & _ & _ & _ & _ & Hp).
  unfold log_properties. rewrite get_object, bind_eval_Ret. cbn [field].
  destruct (lookup "properties" f); try discriminate; try reflexivity.
  apply when_ok. cbn [object_keys]. rewrite bind_eval_Ret.
  apply when_ok, log_ok.
Qed.
End LogOk.

Lemma log_invalid_events_ok l :
  forallb wf_event l = true -> fst (log_invalid_events l) = Ret tt.
Proof.
  intros W. unfold log_invalid_events. apply when_ok.
  rewrite (fst_bind_ok _ tt) by reflexivity.
  apply forEach_ok. intros e i He.
  rewrite forallb_forall in W. specialize (W e He).
  rewrite (event_heading_wf e i W), bind_eval_Ret.
  rewrite (fst_bind_ok _ tt) by reflexivity.
  rewrite (fst_bind_ok _ tt) by (apply log_message_ok; trivial).
  rewrite (fst_bind_ok _ tt) by (apply log_location_ok; trivial).
  apply log_properties_ok; trivial.
Qed.

Lemma log_missing_events_ok l :
  forallb wf_event l = true -> fst (log_missing_events l) = Ret tt.
Proof.
  intros W. unfold log_missing_events. apply when_ok.
  rewrite (fst_bind_ok _ tt) by reflexivity.
  apply forEach_ok. intros e i He.
  rewrite forallb_forall in W. specialize (W e He).
  rewrite (event_heading_wf e i W), bind_eval_Ret.
  rewrite (fst_bind_ok _ tt) by reflexivity.
  rewrite (fst_bind_ok _ tt) by (apply log_message_ok; trivial).
  apply log_properties_ok; trivial.
Qed.

Lemma log_new_events_ok l :
  forallb wf_event l = true -> fst (log_new_events l) = Ret tt.
Proof.
  intros W. unfold log_new_events. apply when_ok.
  rewrite (fst_bind_ok _ tt) by reflexivity.
  apply forEach_ok. intros e i He.
  rewrite forallb_forall in W. specialize (W e He).
  rewrite (event_heading_wf e i W), bind_eval_Ret.
  rewrite (fst_bind_ok _ tt) by reflexivity.
  rewrite (fst_bind_ok _ tt) by (apply log_location_ok; trivial).
  apply log_properties_ok; trivial.
Qed.

(** *** Review comments *)

Lemma properties_text_wf e none :
  wf_event e = true -> properties_text e none = Ret (shown_properties none e).
Proof.
  intros W. destruct (wf_event_fields e W) as (f & -> & _ & _ & _ & _ & Hp).
  unfold properties_text, shown_properties. cbn [get field obind].
  destruct (lookup "properties" f); try discriminate; reflexivity.
Qed.

Lemma event_comment_wf title default label none e :
  wf_event e = true -> located e = true ->
  event_comment title default label none e
  = Ret (comment_for title default label none e).
Proof.
  intros W L. unfold event_comment, comment_for.
  rewrite (first_implementation_wf e W). cbn [obind].
  destruct (wf_implementation_fields _ (located_wf e W L))
    as (fi & -> & _). cbn [get field obind].
  rewrite (properties_text_wf e none W).
  destruct (wf_event_fields e W) as (f & -> & Hn & _ & Hm & _).
  unfold name_of, shown_message. cbn [get field obind].
  destruct (lookup "name" f); try discriminate. cbn [to_string obind].
  destruct (lookup "message" f) as [| | | |m| |]; try discriminate;
    try reflexivity.
  unfold or_else. cbn [truthy].
  destruct (String.eqb m ""); reflexivity.
Qed.

Lemma push_event_comments_wf title default label none events :
  forallb wf_event events = true ->
  forall reviewComments,
    push_event_comments title default label none events reviewComments
    = Ret (reviewComments
           ++ map (comment_for title default label none)
                  (filter located events))%list.
Proof.
  induction events as [|e events IH]; intros W acc.
  - cbn. rewrite app_nil_r. reflexivity.
  - cbn [forallb] in W. apply andb_prop in W. destruct W as [We Wl].
    cbn [push_event_comments filter].
    rewrite (has_implementation_wf e We). cbn [obind].
    destruct (located e) eqn:L.
    + rewrite (event_comment_wf _ _ _ _ e We L). cbn [obind].
      rewrite (IH Wl). rewrite <- app_assoc. reflexivity.
    + apply IH, Wl.
Qed.

Lemma missing_names_wf events :
  forallb wf_event events = true ->
  missing_names events = Ret (join ", " (map quoted_name events)).
Proof.
  intros W. unfold missing_names.
  assert (E : mapM (fun e => obind (obind (get e "name") to_string)
                               (fun name => Ret ("`" ++ name ++ "`")))
                   events = Ret (map quoted_name events)).
  { induction events as [|e events IH]; [reflexivity|].
    cbn [forallb] in W. apply andb_prop in W. destruct W as [We Wl].
    cbn [mapM map]. rewrite (IH Wl).
    destruct (wf_event_fields e We) as (f & -> & Hn & _).
    unfold quoted_name, name_of. cbn [get field obind].
    destruct (lookup "name" f); try discriminate. reflexivity. }
  rewrite E. reflexivity.
Qed.

Lemma build_review_comments_wf r :
  wf_result r = true ->
  build_review_comments r = Ret (expected_comments r).
Proof.
  intros W. pose proof (wf_result_events r W) as E.
  unfold build_review_comments.
  destruct (wf_result_object r W) as [f Hr]. rewrite Hr at 1.
  rewrite get_object. rewrite <- Hr. cbn [obind].
  rewrite !filter_by_status_wf by trivial. cbn [obind].
  rewrite push_event_comments_wf by (apply filter_wf; trivial).
  cbn [obind app].
  rewrite push_event_comments_wf by (apply filter_wf; trivial).
  cbn [obind].
  unfold push_missing_comment, expected_comments, event_comments,
    invalid_comment, new_comment, invalid_events, new_events, missing_events.
  destruct (filter (has_status "missing") (events_of r)) as [|m ms] eqn:Em.
  - cbn [length Nat.ltb Nat.leb]. rewrite app_nil_r. reflexivity.
  - cbn [length Nat.ltb Nat.leb].
    rewrite missing_names_wf
      by (rewrite <- Em; apply filter_wf; trivial).
    reflexivity.
Qed.

(** *** Occurrences in text *)

Lemma append_assoc (a b c : string) : (a ++ b) ++ c = a ++ b ++ c.
Proof.
  induction a as [|x a IH]; [reflexivity|].
  change (String x ((a ++ b) ++ c) = String x (a ++ b ++ c)).
  rewrite IH. reflexivity.
Qed.

Lemma append_nil_r (a : string) : a ++ "" = a.
Proof.
  induction a as [|x a IH]; [reflexivity|].
  change (String x (a ++ "") = String x a). rewrite IH. reflexivity.
Qed.

Lemma contains_here sub rest : contains (sub ++ rest) sub.
Proof. exists "", rest. reflexivity. Qed.

Lemma contains_refl s : contains s s.
Proof. exists "", "". change (s = s ++ ""). rewrite append_nil_r. reflexivity. Qed.

Lemma contains_later pre s sub : contains s sub -> contains (pre ++ s) sub.
Proof.
  intros (a & b & ->). exists (pre ++ a), b. rewrite append_assoc. reflexivity.
Qed.

Lemma contains_before s post sub : contains s sub -> contains (s ++ post) sub.
Proof.
  intros (a & b & ->). exists a, (b ++ post).
  rewrite !append_assoc. reflexivity.
Qed.

Lemma contains_trans a b c : contains a b -> contains b c -> contains a c.
Proof.
  intros (p & q & ->) H. apply contains_later, contains_before, H.
Qed.

Lemma contains_join sep items x :
  In x items -> contains (join sep items) x.
Proof.
  unfold join. induction items as [|y items IH]; [contradiction|].
  intros [->|Hx].
  - destruct items; [apply contains_refl | apply contains_here].
  - destruct items as [|z items]; [contradiction|].
    change (String.concat sep (y :: z :: items))
      with (y ++ sep ++ String.concat sep (z :: items)).
    apply contains_later, contains_later, IH, Hx.
Qed.

Lemma comment_for_describes marker title_rest default label none e :
  describes marker default none e
    (comment_for (marker ++ title_rest) default label none e).
Proof.
  unfold describes, comment_for. cbn [path line body].
  repeat split.
  - rewrite append_assoc. apply contains_here.
  - do 2 apply contains_later. apply contains_here.
  - do 6 apply contains_later. apply contains_here.
  - do 12 apply contains_later. apply contains_refl.
Qed.

Lemma invalid_comment_describes e :
  describes "❌" invalid_default "None specified" e (invalid_comment e).
Proof. apply (comment_for_describes "❌" " **Invalid Event**"). Qed.

Lemma new_comment_describes e :
  describes "🆕" new_default "None detected" e (new_comment e).
Proof. apply (comment_for_describes "🆕" " **New Event**"). Qed.

Lemma aggregate_comment_is_aggregate missing :
  is_aggregate missing (aggregate_comment missing).
Proof.
  unfold is_aggregate, aggregate_comment. cbn [path line body].
  repeat split. intros e He.
  do 3 apply contains_later. apply contains_before.
  apply contains_trans with (quoted_name e).
  - apply contains_join, in_map, He.
  - unfold quoted_name. apply contains_later, contains_here.
Qed.

(** *** The review itself *)

Lemma metadata_text_wf r k label suffix :
  wf_result r = true -> In k ["validationDuration"; "agentVersion"] ->
  exists s, metadata_text r k label suffix = Ret s.
Proof.
  intros W Hk. destruct r; try discriminate. cbn [wf_result] in W.
  rewrite !andb_true_iff in W. destruct W as ((((_ & _) & _) & _) & Hm).
  unfold metadata_text. cbn [get obind].
  destruct (lookup "metadata" fields) as [| | | | | |fm]; try discriminate.
  - eexists; reflexivity.
  - eexists; reflexivity.
  - cbn [absent_or wf_metadata] in Hm. apply andb_prop in Hm.
    destruct Hm as [Hd Hv]. cbn [get_opt nullish get obind].
    destruct Hk as [<-|[<-|[]]].
    + destruct (lookup "validationDuration" fm); try discriminate;
        try (eexists; reflexivity).
      cbn [absent_or is_count] in Hd. cbn [truthy to_string]. rewrite Hd.
      destruct (negb (Z.eqb n 0)); eexists; reflexivity.
    + destruct (lookup "agentVersion" fm); try discriminate;
        try (eexists; reflexivity).
      cbn [truthy to_string].
      destruct (negb (String.eqb s "")); eexists; reflexivity.
Qed.

Lemma reviewBody_wf r :
  wf_result r = true -> exists s, reviewBody r = Ret s.
Proof.
  intros W. unfold reviewBody.
  rewrite !count_text_wf by (trivial; in_fields). cbn [obind].
  destruct (metadata_text_wf r "validationDuration" "Validation Duration"
              "ms" W) as [d ->]; [simpl; tauto|].
  destruct (metadata_text_wf r "agentVersion" "Agent Version" "" W)
    as [v ->]; [simpl; tauto|].
  destruct (wf_result_object r W) as [f ->]. cbn [get obind].
  eexists; reflexivity.
Qed.

Lemma review_disposition_wf r :
  wf_result r = true -> review_disposition r = Ret (expected_disposition r).
Proof.
  intros W. destruct (wf_result_object r W) as [f ->].
  pose proof (wf_result_summary _ W) as S.
  destruct (wf_summary_field _ "invalidEvents" S) as [G C]; [in_fields|].
  unfold review_disposition, expected_disposition, count_of.
  rewrite get_object. cbn [obind]. rewrite G. cbn [obind].
  destruct (field (field (JObj f) "summary") "invalidEvents");
    try discriminate; reflexivity.
Qed.

Lemma review_outcome_logs env n : only_logs (review_outcome env n).
Proof.
  unfold review_outcome. destruct (review_reply env) as [e|]; [|reflexivity].
  destruct (response e); reflexivity.
Qed.

Lemma addPr_token_missing env r :
  token_missing (GITHUB_TOKEN env) = true ->
  addPrReviewComments env r
  = (Ret tt,
     [EnterPublisher;
      Warning "GITHUB_TOKEN not available, skipping PR review comments"]).
Proof. intros T. unfold addPrReviewComments. rewrite T. reflexivity. Qed.

Lemma addPr_no_comments env r owner_repo pr :
  token_missing (GITHUB_TOKEN env) = false ->
  repo env = Some owner_repo -> payload_pull_request env = Some pr ->
  wf_result r = true -> expected_comments r = [] ->
  addPrReviewComments env r
  = (Ret tt, [EnterPublisher; Info "No review comments to add"]).
Proof.
  intros T R P W C. unfold addPrReviewComments, context_repo,
    context_pr_number. rewrite T, R, P, (build_review_comments_wf r W), C.
  reflexivity.
Qed.

Lemma addPr_submits env r owner_repo pr :
  token_missing (GITHUB_TOKEN env) = false ->
  repo env = Some owner_repo -> payload_pull_request env = Some pr ->
  wf_result r = true -> expected_comments r <> [] ->
  exists text,
    addPrReviewComments env r
    = (Ret tt,
       EnterPublisher
       :: CreateReview {| owner := fst owner_repo;
                          repo_name := snd owner_repo;
                          pull_number := number pr;
                          review_body := text;
                          event := expected_disposition r;
                          comments := expected_comments r |}
       :: review_outcome env (length (expected_comments r))).
Proof.
  intros T R P W C. unfold addPrReviewComments, context_repo,
    context_pr_number, review_outcome, pulls_createReview.
  rewrite T, R, P, (build_review_comments_wf r W),
    (review_disposition_wf r W).
  destruct (reviewBody_wf r W) as [text ->]. exists text.
  destruct (expected_comments r) as [|c cs]; [contradiction|].
  rewrite !bind_eval_Ret. cbn [length Nat.ltb Nat.leb].
  destruct (review_reply env) as [e|]; [|reflexivity].
  cbn. destruct (response e); reflexivity.
Qed.

Lemma addPr_ok env r :
  wf_result r = true -> fst (addPrReviewComments env r) = Ret tt.
Proof.
  intros W.
  destruct (token_missing (GITHUB_TOKEN env)) eqn:T;
    [rewrite addPr_token_missing by trivial; reflexivity|].
  destruct (repo env) as [owner_repo|] eqn:R.
  - destruct (payload_pull_request env) as [pr|] eqn:P.
    + destruct (expected_comments r) as [|c cs] eqn:C.
      * rewrite (addPr_no_comments env r owner_repo pr); trivial.
      * destruct (addPr_submits env r owner_repo pr) as [text ->];
          trivial. congruence.
    + unfold addPrReviewComments, context_repo, context_pr_number.
      rewrite T, R, P. reflexivity.
  - unfold addPrReviewComments, context_repo. rewrite T, R. reflexivity.
Qed.

(** The publisher never marks the run failed and never sets an output,
    whatever payload it is given and however the hosting API answers. *)
Lemma addPr_no_failure env r : no_failure (snd (addPrReviewComments env r)).
Proof.
  unfold addPrReviewComments, pulls_createReview. trace_inv.
Qed.

Lemma addPr_no_outputs env r : no_outputs (snd (addPrReviewComments env r)).
Proof.
  unfold addPrReviewComments, pulls_createReview. trace_inv.
Qed.

(** *** The terminal policy *)

Lemma joined_names_wf events :
  forallb wf_event events = true ->
  joined_names events = Ret (join ", " (map name_of events)).
Proof.
  intros W. unfold joined_names.
  assert (E : mapM (fun e => obind (get e "name") join_item) events
              = Ret (map name_of events)).
  { induction events as [|e events IH]; [reflexivity|].
    cbn [forallb] in W. apply andb_prop in W. destruct W as [We Wl].
    cbn [mapM map]. rewrite (IH Wl).
    destruct (wf_event_fields e We) as (f & -> & Hn & _).
    unfold name_of. cbn [get field obind].
    destruct (lookup "name" f); try discriminate. reflexivity. }
  rewrite E. reflexivity.
Qed.

Lemma fail_on_invalid_wf r :
  wf_result r = true ->
  exists msg,
    fail_on_invalid r (invalid_events r) (missing_events r)
    = (Ret tt, [SetFailed msg]).
Proof.
  intros W. pose proof (wf_result_events r W) as E.
  unfold fail_on_invalid.
  rewrite !summary_or_0_wf by (trivial; in_fields).
  rewrite !bind_eval_Ret. cbn [to_string gt0].
  rewrite !count_safe by (trivial; in_fields).
  rewrite !bind_eval_Ret.
  rewrite !joined_names_wf by (apply filter_wf; trivial).
  destruct (Z.ltb 0 (count_of r "invalidEvents"));
    destruct (Z.ltb 0 (count_of r "missingEvents"));
    rewrite ?bind_eval_Ret; eexists; reflexivity.
Qed.

(** *** The reporter on a well-formed payload *)

Lemma report_guard r :
  negb (truthy r) || negb (typeof_object r) = negb (non_null_object r).
Proof. destruct r; simpl; rewrite ?orb_true_r; reflexivity. Qed.

Lemma report_wf env c f r :
  wf_result r = true ->
  exists logs msg,
    only_logs logs
    /\ report env c f r
       = (Ret tt,
          (logs ++ output_effects r
           ++ (if c && is_pull_request env
               then snd (addPrReviewComments env r) else [])
           ++ (if negb (truthy (field r "valid")) && f
               then [SetFailed msg] else []))%list).
Proof.
  intros W. pose proof (wf_result_events r W) as E.
  destruct (fail_on_invalid_wf r W) as [msg F].
  exists (snd (log_summary r)
          ++ snd (log_invalid_events (invalid_events r))
          ++ snd (log_missing_events (missing_events r))
          ++ snd (log_new_events (new_events r)))%list, msg.
  split.
  { repeat apply inv_app; first
      [ apply log_summary_logs | apply log_invalid_events_logs
      | apply log_missing_events_logs | apply log_new_events_logs ]. }
  unfold report. rewrite report_guard.
  destruct (wf_result_object r W) as [f0 Hr].
  replace (non_null_object r) with true by (rewrite Hr; reflexivity).
  cbn [negb].
  rewrite (bind_ok (log_summary r) tt) by (apply log_summary_ok, W).
  replace (get r "events") with (Ret (field r "events"))
    by (rewrite Hr; reflexivity).
  replace (get r "valid") with (Ret (field r "valid"))
    by (rewrite Hr; reflexivity).
  rewrite !bind_eval_Ret.
  rewrite !filter_by_status_wf by trivial. rewrite !bind_eval_Ret.
  fold (invalid_events r) (missing_events r) (new_events r).
  rewrite (bind_ok (log_invalid_events _) tt)
    by (apply log_invalid_events_ok, filter_wf, E).
  rewrite (bind_ok (log_missing_events _) tt)
    by (apply log_missing_events_ok, filter_wf, E).
  rewrite (bind_ok (log_new_events _) tt)
    by (apply log_new_events_ok, filter_wf, E).
  rewrite (set_outputs_wf r W), bind_Ret. fold (output_effects r).
  assert (P : when (c && is_pull_request env) (addPrReviewComments env r)
              = (Ret tt, if c && is_pull_request env
                         then snd (addPrReviewComments env r) else [])).
  { destruct (c && is_pull_request env); [|reflexivity].
    cbn [when]. rewrite (surjective_pairing (addPrReviewComments env r)) at 1.
    rewrite (addPr_ok env r W). reflexivity. }
  rewrite P, bind_Ret.
  assert (T : when (negb (truthy (field r "valid")) && f)
                (fail_on_invalid r (invalid_events r) (missing_events r))
              = (Ret tt, if negb (truthy (field r "valid")) && f
                         then [SetFailed msg] else [])).
  { destruct (negb (truthy (field r "valid")) && f); [|reflexivity].
    cbn [when]. exact F. }
  rewrite T. cbn [fst snd]. rewrite <- !app_assoc. reflexivity.
Qed.

(** *** Whole runs *)

Lemma run_wf env i r :
  collect_inputs env = Ret i -> validation_reply env = inr r ->
  wf_result r = true ->
  exists logs msg,
    only_logs logs
    /\ run env
       = (Ret tt,
          (request_trace env i ++ logs ++ output_effects r
           ++ (if Inputs.comment i && is_pull_request env
               then snd (addPrReviewComments env r) else [])
           ++ (if negb (truthy (field r "valid")) && Inputs.failOnInvalid i
               then [SetFailed msg] else []))%list).
Proof.
  intros C R W. rewrite (run_call_returns env i r C R).
  destruct (report_wf env (Inputs.comment i) (Inputs.failOnInvalid i) r W)
    as (logs & msg & L & ->).
  exists logs, msg. split; [exact L | reflexivity].
Qed.

Lemma collect_inputs_Ret env i :
  collect_inputs env = Ret i ->
  inputs_ok env = true
  /\ Inputs.comment i = boolean_input env "comment"
  /\ Inputs.failOnInvalid i = boolean_input env "fail-on-invalid".
Proof.
  intros C. destruct (inputs_ok env) eqn:E.
  - destruct (collect_inputs_ok env E) as (i' & C' & H1 & H2).
    rewrite C in C'. injection C' as <-. auto.
  - destruct (collect_inputs_fails env E) as (e & C'). congruence.
Qed.

Lemma run_catch_no_outputs e : no_outputs (snd (run_catch e)).
Proof. unfold run_catch. trace_inv. Qed.

Lemma run_catch_no_publisher e : no_publisher (snd (run_catch e)).
Proof. unfold run_catch. trace_inv. Qed.

Lemma run_catch_no_review e : no_review (snd (run_catch e)).
Proof. unfold run_catch. trace_inv. Qed.

Lemma run_catch_failed e : failed (snd (run_catch e)) = true.
Proof. destruct (run_catch_trace e) as (logs & -> & _). reflexivity. Qed.

(** Every run is of one of three kinds. *)
Lemma run_cases env :
  (inputs_ok env = false /\ exists e, run env = run_catch e)
  \/ (exists i e, collect_inputs env = Ret i /\ validation_reply env = inl e
        /\ run env = (fst (run_catch e),
                      (request_trace env i ++ snd (run_catch e))%list))
  \/ (exists i r, collect_inputs env = Ret i /\ validation_reply env = inr r
        /\ run env
           = (fst (try_catch (report env (Inputs.comment i)
                                (Inputs.failOnInvalid i) r) run_catch),
              (request_trace env i
               ++ snd (try_catch (report env (Inputs.comment i)
                                    (Inputs.failOnInvalid i) r) run_catch))%list)).
Proof.
  destruct (inputs_ok env) eqn:E.
  - destruct (collect_inputs_ok env E) as (i & C & _).
    destruct (validation_reply env) as [e|r] eqn:R.
    + right; left. exists i, e. repeat split; trivial.
      apply run_call_fails; trivial.
    + right; right. exists i, r. repeat split; trivial.
      apply (run_call_returns env i r C R).
  - left. split; [reflexivity|].
    destruct (collect_inputs_fails env E) as (e & C).
    exists e. apply run_inputs_fail, C.
Qed.

(** A run whose reply is not accepted ends in the [catch] block right
    after the request. *)
Lemma report_rejects env c f r :
  non_null_object r = false ->
  report env c f r = throw (Error "Invalid response format from validation API").
Proof. intros N. unfold report. rewrite report_guard, N. reflexivity. Qed.

(** * The claims *)

Lemma try_catch_throw {A} (e : js_error) (handler : js_error -> M A) :
  try_catch (throw e) handler = handler e.
Proof. unfold try_catch, throw. destruct (handler e); reflexivity. Qed.

Lemma request_trace_quiet env i :
  outputs (request_trace env i) = []
  /\ failed (request_trace env i) = false
  /\ publisher_invoked (request_trace env i) = false
  /\ review_calls (request_trace env i) = [].
Proof. repeat split. Qed.

(** C10. Whenever the validation call fails, or its body is rejected as
    malformed, the run is marked failed, sets none of the outputs, never
    calls the Review Publisher and never calls the repository-hosting API,
    whatever the inputs and the context are. *)
Theorem rejected_validation_has_no_effects env :
  call_fails env || malformed_body env = true ->
  failed (trace env) = true
  /\ outputs (trace env) = []
  /\ publisher_invoked (trace env) = false
  /\ review_calls (trace env) = [].
Proof.
  intros H. unfold trace.
  pose proof run_catch_no_outputs as Co.
  pose proof run_catch_no_publisher as Cp.
  pose proof run_catch_no_review as Cr.
  unfold no_outputs, no_publisher, no_review in Co, Cp, Cr.
  destruct (run_cases env) as [(_ & e & ->)|[(i & e & _ & _ & ->)|
                                             (i & r & _ & R & ->)]].
  - rewrite run_catch_failed, Co, Cp, Cr. repeat split.
  - cbn [snd]. rewrite failed_app, outputs_app, publisher_invoked_app,
      review_calls_app.
    rewrite run_catch_failed, Co, Cp, Cr. repeat split.
  - unfold call_fails, malformed_body in H. rewrite R in H. cbn in H.
    apply negb_true_iff in H.
    rewrite (report_rejects env _ _ r H), try_catch_throw. cbn [snd].
    rewrite failed_app, outputs_app, publisher_invoked_app, review_calls_app.
    rewrite run_catch_failed, Co, Cp, Cr. repeat split.
Qed.

Lemma rejected_validation_has_no_effects_witness :
  call_fails (sample_env (inr (JStr "<html>")))
  || malformed_body (sample_env (inr (JStr "<html>"))) = true
  /\ failed (trace (sample_env (inr (JStr "<html>")))) = true
  /\ outputs (trace (sample_env (inr (JStr "<html>")))) = []
  /\ publisher_invoked (trace (sample_env (inr (JStr "<html>")))) = false
  /\ review_calls (trace (sample_env (inr (JStr "<html>")))) = [].
Proof.
  split; [reflexivity|].
  apply (rejected_validation_has_no_effects (sample_env (inr (JStr "<html>")))).
  reflexivity.
Defined.

Lemma bind_starts {A B} (m : M A) (k : A -> M B) e :
  (exists rest, snd m = e :: rest) -> exists rest, snd (bind m k) = e :: rest.
Proof.
  intros [rest E]. destruct m as [[a| |] t]; cbn [snd] in E; subst t;
    cbn [bind]; try (eexists; reflexivity).
  destruct (k a). eexists; reflexivity.
Qed.

Lemma try_catch_starts {A} (m : M A) (handler : js_error -> M A) e :
  (exists rest, snd m = e :: rest) ->
  exists rest, snd (try_catch m handler) = e :: rest.
Proof.
  intros [rest E]. destruct m as [[a|x|] t]; cbn [snd] in E; subst t;
    cbn [try_catch]; try (eexists; reflexivity).
  destruct (handler x). eexists; reflexivity.
Qed.

(** An accepted reply is logged first. *)
Lemma report_starts_logging env c f r :
  non_null_object r = true ->
  exists msg rest,
    snd (try_catch (report env c f r) run_catch) = Info msg :: rest.
Proof.
  intros N.
  assert (G : exists v, get r "valid" = Ret v)
    by (destruct r; try discriminate; eexists; reflexivity).
  destruct G as [v G].
  exists ("Validation completed with "
          ++ (if truthy v then "success" else "errors")).
  apply try_catch_starts. unfold report. rewrite report_guard, N. cbn [negb].
  apply bind_starts. unfold log_summary. rewrite G, bind_eval_Ret.
  apply bind_starts. eexists; reflexivity.
Qed.

(** C3. Once the inputs are collected and the validation call has returned
    a body, the run ends with the malformed-response failure right after
    the request (nothing logged about the result, no output set, no review
    published) if and only if the body is not a non-null object.  Arrays
    are objects in JavaScript and are accepted. *)
Theorem malformed_response_rejected env i r :
  collect_inputs env = Ret i -> validation_reply env = inr r ->
  (trace env = (request_trace env i ++ [malformed_response_failure])%list
   <-> non_null_object r = false).
Proof.
  intros C R. unfold trace. rewrite (run_call_returns env i r C R). cbn [snd].
  split.
  - intros E. destruct (non_null_object r) eqn:N; [|reflexivity].
    destruct (report_starts_logging env (Inputs.comment i)
                (Inputs.failOnInvalid i) r N) as (msg & rest & S).
    rewrite S in E. apply app_inv_head in E. discriminate E.
  - intros N. rewrite (report_rejects env _ _ r N), try_catch_throw.
    reflexivity.
Qed.

Lemma malformed_response_rejected_witness :
  collect_inputs (sample_env (inr JNull)) = Ret sample_collected
  /\ (trace (sample_env (inr JNull))
      = (request_trace (sample_env (inr JNull)) sample_collected
         ++ [malformed_response_failure])%list
      <-> non_null_object JNull = false).
Proof.
  split; [reflexivity|].
  apply (malformed_response_rejected (sample_env (inr JNull))
           sample_collected JNull); reflexivity.
Defined.

(** C1, as the code has it.  For every well-formed ValidationResult that a
    run receives, exactly seven outputs are set, in this order: [valid],
    [total_events], [valid_events], [invalid_events], [missing_events],
    [new_events] and [tracking_plan_updated].  A count that is absent from
    the payload is reported as 0 and an absent [trackingPlanUpdated] as
    false; [valid] is passed on as received. *)
Theorem reporter_sets_seven_outputs env r :
  inputs_ok env = true -> validation_reply env = inr r ->
  wf_result r = true ->
  outputs (trace env)
  = [("valid", field r "valid");
     ("total_events", JNum (count_of r "totalEvents"));
     ("valid_events", JNum (count_of r "validEvents"));
     ("invalid_events", JNum (count_of r "invalidEvents"));
     ("missing_events", JNum (count_of r "missingEvents"));
     ("new_events", JNum (count_of r "newEvents"));
     ("tracking_plan_updated", JBool (flag_of r "trackingPlanUpdated"))].
Proof.
  intros I R W. destruct (collect_inputs_ok env I) as (i & C & _).
  destruct (run_wf env i r C R W) as (logs & msg & L & E).
  unfold trace. rewrite E. cbn [snd]. rewrite !outputs_app.
  rewrite (only_logs_no_outputs logs L).
  assert (P : outputs (if Inputs.comment i && is_pull_request env
                       then snd (addPrReviewComments env r) else []) = []).
  { destruct (Inputs.comment i && is_pull_request env); [|reflexivity].
    apply addPr_no_outputs. }
  rewrite P.
  destruct (negb (truthy (field r "valid")) && Inputs.failOnInvalid i);
    reflexivity.
Qed.

Lemma reporter_sets_seven_outputs_witness :
  inputs_ok (sample_env (inr all_valid_result)) = true
  /\ wf_result all_valid_result = true
  /\ outputs (trace (sample_env (inr all_valid_result)))
     = [("valid", JBool true);
        ("total_events", JNum 5);
        ("valid_events", JNum 5);
        ("invalid_events", JNum 0);
        ("missing_events", JNum 0);
        ("new_events", JNum 0);
        ("tracking_plan_updated", JBool false)].
Proof.
  split; [reflexivity|]. split; [reflexivity|].
  apply (reporter_sets_seven_outputs (sample_env (inr all_valid_result))
           all_valid_result); reflexivity.
Defined.

(** C1, as stated, fails for [valid]: on the well-formed payload [{}] the
    output [valid] is set to [undefined], not to false, while the six other
    outputs take their defaults. *)
Lemma valid_output_has_no_default :
  wf_result (JObj []) = true
  /\ field (JObj []) "valid" = JUndefined
  /\ outputs (trace (sample_env (inr (JObj []))))
     = [("valid", JUndefined);
        ("total_events", JNum 0);
        ("valid_events", JNum 0);
        ("invalid_events", JNum 0);
        ("missing_events", JNum 0);
        ("new_events", JNum 0);
        ("tracking_plan_updated", JBool false)]
  /\ ~ In ("valid", JBool false)
          (outputs (trace (sample_env (inr (JObj []))))).
Proof.
  split; [reflexivity|]. split; [reflexivity|].
  assert (E : outputs (trace (sample_env (inr (JObj []))))
              = [("valid", JUndefined);
                 ("total_events", JNum 0);
                 ("valid_events", JNum 0);
                 ("invalid_events", JNum 0);
                 ("missing_events", JNum 0);
                 ("new_events", JNum 0);
                 ("tracking_plan_updated", JBool false)])
    by (vm_compute; reflexivity).
  split; [exact E|]. rewrite E. simpl.
  intros [H|[H|[H|[H|[H|[H|[H|[]]]]]]]]; discriminate H.
Qed.

Lemma failed_of_well_typed_run env i r :
  collect_inputs env = Ret i -> validation_reply env = inr r ->
  wf_result r = true ->
  failed (trace env)
  = negb (truthy (field r "valid")) && Inputs.failOnInvalid i.
Proof.
  intros C R W. destruct (run_wf env i r C R W) as (logs & msg & L & E).
  unfold trace. rewrite E. cbn [snd]. rewrite !failed_app.
  rewrite (only_logs_no_failure logs L).
  assert (P : failed (if Inputs.comment i && is_pull_request env
                      then snd (addPrReviewComments env r) else []) = false).
  { destruct (Inputs.comment i && is_pull_request env); [|reflexivity].
    apply addPr_no_failure. }
  rewrite P.
  destruct (negb (truthy (field r "valid")) && Inputs.failOnInvalid i);
    reflexivity.
Qed.

Lemma failed_characterised env :
  reply_well_typed env = true ->
  failed (trace env)
  = negb (inputs_ok env) || call_fails env || malformed_body env
    || (boolean_input env "fail-on-invalid" && result_invalid env).
Proof.
  intros T.
  destruct (run_cases env) as [(I & e & E)|[(i & e & C & R & E)|
                                            (i & r & C & R & _)]].
  - unfold trace. rewrite E, run_catch_failed, I. reflexivity.
  - unfold trace. rewrite E. cbn [snd].
    rewrite failed_app, run_catch_failed, orb_true_r.
    unfold call_fails. rewrite R, orb_true_r. reflexivity.
  - destruct (collect_inputs_Ret env i C) as (I & _ & F).
    unfold reply_well_typed, call_fails, malformed_body, result_invalid in *.
    rewrite R in *. rewrite I. cbn [negb orb].
    destruct (non_null_object r) eqn:N; cbn [negb orb] in *.
    + rewrite (failed_of_well_typed_run env i r C R T), F.
      apply andb_comm.
    + unfold trace. rewrite (run_call_returns env i r C R). cbn [snd].
      rewrite (report_rejects env _ _ r N), try_catch_throw.
      rewrite failed_app, run_catch_failed, orb_true_r. reflexivity.
Qed.

(** C2, as the code has it.  When the reply of the validation service is
    either not a non-null object or a well-formed ValidationResult, the run
    is marked failed exactly when input collection fails, the validation
    call fails, the body is not a non-null object, or fail-on-invalid is
    true and [result.valid] is false or absent.  In particular, with
    fail-on-invalid false a run whose reply is accepted is never failed, and
    neither the token nor the answer of the hosting API changes whether the
    run is failed. *)
Theorem run_failure_conditions env :
  reply_well_typed env = true ->
  failed (trace env)
  = negb (inputs_ok env) || call_fails env || malformed_body env
    || (boolean_input env "fail-on-invalid" && result_invalid env)
  /\ (boolean_input env "fail-on-invalid" = false ->
      inputs_ok env = true -> call_fails env = false ->
      malformed_body env = false -> failed (trace env) = false)
  /\ (forall token reply,
        failed (trace (with_publishing env token reply))
        = failed (trace env)).
Proof.
  intros T. split; [apply failed_characterised, T|]. split.
  - intros F I C B. rewrite (failed_characterised env T), F, I, C, B.
    reflexivity.
  - intros token reply.
    rewrite (failed_characterised env T).
    rewrite (failed_characterised (with_publishing env token reply) T).
    reflexivity.
Qed.

Lemma run_failure_conditions_witness :
  reply_well_typed (sample_env (inr mixed_result)) = true
  /\ failed (trace (sample_env (inr mixed_result))) = true.
Proof.
  split; [reflexivity|].
  exact (proj1 (run_failure_conditions (sample_env (inr mixed_result))
                  eq_refl)).
Defined.

(** C2, as stated, fails: with every input in order, the call answered by
    an object whose [valid] is true, the run is still marked failed,
    because [events] is not an array and filtering it throws before any
    output is set. *)
Lemma ill_typed_reply_fails_the_run :
  inputs_ok (sample_env (inr ill_typed_result)) = true
  /\ call_fails (sample_env (inr ill_typed_result)) = false
  /\ malformed_body (sample_env (inr ill_typed_result)) = false
  /\ result_invalid (sample_env (inr ill_typed_result)) = false
  /\ failed (trace (sample_env (inr ill_typed_result))) = true
  /\ In (SetFailed "Action failed: result.events?.filter is not a function")
        (trace (sample_env (inr ill_typed_result))).
Proof.
  repeat split; try reflexivity.
  vm_compute. do 8 right. left. reflexivity.
Qed.

(** *** The publishing gate *)






(** *** The missing token *)

Lemma report_token_missing env c f r :
  token_missing (GITHUB_TOKEN env) = true ->
  no_review (snd (report env c f r))
  /\ warns_when_invoked (snd (report env c f r)).
Proof.
  intros T.
  assert (V : no_review (snd (addPrReviewComments env r)))
    by (rewrite addPr_token_missing by trivial; reflexivity).
  assert (Wn : warns_when_invoked (snd (addPrReviewComments env r)))
    by (rewrite addPr_token_missing by trivial; intros _; right; left;
        reflexivity).
  unfold report, set_outputs, fail_on_invalid, log_summary.
  split; trace_inv.
Qed.

Lemma run_catch_warns e : warns_when_invoked (snd (run_catch e)).
Proof. intros P. rewrite run_catch_no_publisher in P. discriminate P. Qed.

(** C5. When the repository-hosting token is absent (unset or empty), the
    Review Publisher logs one warning, calls nothing and returns normally,
    for every payload; and every such run in which the publisher is called
    carries the warning and makes no call to the repository-hosting API. *)
Theorem publisher_without_token env :
  token_missing (GITHUB_TOKEN env) = true ->
  (forall result,
     addPrReviewComments env result = (Ret tt, [EnterPublisher; token_warning]))
  /\ (publisher_invoked (trace env) = true -> In token_warning (trace env))
  /\ review_calls (trace env) = [].
Proof.
  intros T. split; [intros r; apply addPr_token_missing, T|].
  unfold trace.
  destruct (run_cases env) as [(_ & e & ->)|[(i & e & _ & _ & ->)|
                                             (i & r & _ & _ & ->)]].
  - split; [apply run_catch_warns | apply run_catch_no_review].
  - cbn [snd]. split.
    + apply (inv_app (Q := warns_when_invoked)); [discriminate|].
      apply run_catch_warns.
    + rewrite review_calls_app, run_catch_no_review. reflexivity.
  - destruct (report_token_missing env (Inputs.comment i)
                (Inputs.failOnInvalid i) r T) as [V Wn].
    cbn [snd]. split.
    + apply (inv_app (Q := warns_when_invoked)); [discriminate|].
      apply (inv_try_catch warns_when_invoked); [exact Wn|].
      intros e. apply run_catch_warns.
    + rewrite review_calls_app. cbn [review_calls request_trace app].
      apply (inv_try_catch no_review); [exact V|].
      intros e. apply run_catch_no_review.
Qed.

Lemma publisher_without_token_witness :
  token_missing
    (GITHUB_TOKEN (with_publishing (sample_env (inr mixed_result)) None None))
  = true
  /\ In token_warning
        (trace (with_publishing (sample_env (inr mixed_result)) None None))
  /\ review_calls
       (trace (with_publishing (sample_env (inr mixed_result)) None None))
     = [].
Proof.
  split; [reflexivity|].
  destruct (publisher_without_token
              (with_publishing (sample_env (inr mixed_result)) None None)
              eq_refl) as (_ & Wn & V).
  split; [apply Wn; reflexivity | exact V].
Defined.

(** *** Review comments *)

Lemma Forall2_map_describes (P : value -> review_comment -> Prop)
  (f : value -> review_comment) (l : list value) :
  (forall e, P e (f e)) -> Forall2 P l (map f l).
Proof. intros H. induction l; simpl; constructor; auto. Qed.

(** C6. For a well-formed ValidationResult the comment list is made of
    one comment for each invalid event that has an implementation
    location, in order, then one for each new event that has one, then the
    part for missing events (nothing, or the one aggregate comment).  The
    comment of an event is anchored at the path and line of its first
    implementation location, and its body shows the marker of its kind
    (❌ or 🆕), the name of the event, its message or the default text of
    the kind, and its property names joined by a comma or the none-marker
    of the kind when it has no properties. *)
Theorem review_comments_per_event r :
  wf_result r = true ->
  exists for_invalid for_new for_missing,
    build_review_comments r = Ret (for_invalid ++ for_new ++ for_missing)%list
    /\ Forall2 (describes "❌" "Event does not match tracking plan"
                  "None specified")
         (filter located (invalid_events r)) for_invalid
    /\ Forall2 (describes "🆕"
                  "Event found in codebase but not in tracking plan"
                  "None detected")
         (filter located (new_events r)) for_new
    /\ (for_missing = []
        \/ exists c, for_missing = [c] /\ is_aggregate (missing_events r) c).
Proof.
  intros W.
  exists (map invalid_comment (filter located (invalid_events r))),
         (map new_comment (filter located (new_events r))),
         (match missing_events r with
          | [] => []
          | _ :: _ => [aggregate_comment (missing_events r)]
          end).
  split; [|split; [|split]].
  - rewrite (build_review_comments_wf r W). unfold expected_comments,
      event_comments. rewrite <- app_assoc. reflexivity.
  - apply Forall2_map_describes, invalid_comment_describes.
  - apply Forall2_map_describes, new_comment_describes.
  - destruct (missing_events r) eqn:E; [left; reflexivity|].
    right. eexists. split; [reflexivity|].
    rewrite <- E. apply aggregate_comment_is_aggregate.
Qed.

Lemma review_comments_per_event_witness :
  wf_result mixed_result = true
  /\ exists for_invalid for_new for_missing,
       build_review_comments mixed_result
       = Ret (for_invalid ++ for_new ++ for_missing)%list
       /\ Forall2 (describes "❌" "Event does not match tracking plan"
                     "None specified")
            (filter located (invalid_events mixed_result)) for_invalid
       /\ Forall2 (describes "🆕"
                     "Event found in codebase but not in tracking plan"
                     "None detected")
            (filter located (new_events mixed_result)) for_new
       /\ (for_missing = []
           \/ exists c, for_missing = [c]
                        /\ is_aggregate (missing_events mixed_result) c).
Proof.
  split; [reflexivity|].
  apply (review_comments_per_event mixed_result). reflexivity.
Defined.

(** The comments of the sample payload, computed. *)
Example mixed_result_comments :
  build_review_comments mixed_result
  = Ret [{| path := JStr "a.js"; line := JNum 10;
            body := "❌ **Invalid Event**: `purchase`" ++ nl ++ nl
                    ++ "price must be a number" ++ nl ++ nl
                    ++ "**Required Properties**: price, sku" |};
         {| path := JStr "c.js"; line := JNum 42;
            body := "🆕 **New Event**: `share`" ++ nl ++ nl
                    ++ "Event found in codebase but not in tracking plan"
                    ++ nl ++ nl ++ "**Properties**: None detected" |}].
Proof. vm_compute. reflexivity. Qed.

(** C7. For a well-formed ValidationResult with at least one missing
    event, the comment list ends with exactly one aggregate comment: all
    comments before it are the per-event comments of invalid and new
    events, and the aggregate is anchored at [README.md], line 1, with a
    body that lists the name of every missing event. *)
Theorem missing_events_aggregate r :
  wf_result r = true -> missing_events r <> [] ->
  exists c,
    build_review_comments r = Ret (event_comments r ++ [c])%list
    /\ length (event_comments r)
       = (length (filter located (invalid_events r))
          + length (filter located (new_events r)))%nat
    /\ path c = JStr "README.md"
    /\ line c = JNum 1
    /\ forall e, In e (missing_events r) -> contains (body c) (name_of e).
Proof.
  intros W M. exists (aggregate_comment (missing_events r)).
  split; [|split].
  - rewrite (build_review_comments_wf r W). unfold expected_comments.
    destruct (missing_events r); [contradiction | reflexivity].
  - unfold event_comments. rewrite length_app, !length_map. reflexivity.
  - apply aggregate_comment_is_aggregate.
Qed.

Lemma missing_events_aggregate_witness :
  wf_result three_missing_result = true
  /\ exists c,
       build_review_comments three_missing_result = Ret [c]
       /\ path c = JStr "README.md"
       /\ line c = JNum 1
       /\ contains (body c) "signup"
       /\ contains (body c) "login"
       /\ contains (body c) "checkout".
Proof.
  split; [reflexivity|].
  destruct (missing_events_aggregate three_missing_result eq_refl)
    as (c & B & _ & P & L & N); [discriminate|].
  exists c. split; [exact B|]. split; [exact P|]. split; [exact L|].
  split; [|split].
  - apply (N (missing_event "signup")). left. reflexivity.
  - apply (N (missing_event "login")). right. left. reflexivity.
  - apply (N (missing_event "checkout")). right. right. left. reflexivity.
Defined.

(** C8. With a token present, in a pull-request run, for a well-formed
    ValidationResult: when the built comment list is empty the publisher
    logs that there is nothing to add and calls nothing; otherwise it makes
    exactly one [createReview] call, carrying the built comments, whose
    disposition is REQUEST_CHANGES when the invalid-events count of the
    summary is positive and COMMENT otherwise. *)
Theorem review_submission env r owner_repo pr reviewComments :
  token_missing (GITHUB_TOKEN env) = false ->
  repo env = Some owner_repo -> payload_pull_request env = Some pr ->
  wf_result r = true ->
  build_review_comments r = Ret reviewComments ->
  (reviewComments = [] ->
   addPrReviewComments env r
   = (Ret tt, [EnterPublisher; Info "No review comments to add"]))
  /\ (reviewComments <> [] ->
      exists request,
        review_calls (snd (addPrReviewComments env r)) = [request]
        /\ comments request = reviewComments
        /\ event request
           = if Z.ltb 0 (count_of r "invalidEvents")
             then REQUEST_CHANGES else COMMENT).
Proof.
  intros T R P W B. rewrite (build_review_comments_wf r W) in B.
  injection B as <-. split; intros C.
  - apply (addPr_no_comments env r owner_repo pr); trivial.
  - destruct (addPr_submits env r owner_repo pr T R P W C) as [text ->].
    eexists. split.
    + cbn [snd review_calls].
      rewrite (only_logs_no_review _ (review_outcome_logs env _)).
      reflexivity.
    + split; reflexivity.
Qed.

Lemma review_submission_witness :
  exists request,
    review_calls (snd (addPrReviewComments (sample_env (inr mixed_result))
                         mixed_result)) = [request]
    /\ event request = REQUEST_CHANGES
    /\ length (comments request) = 2%nat.
Proof.
  destruct (review_submission (sample_env (inr mixed_result)) mixed_result
              ("octo", "shop")
              {| number := 7; head_sha := "abc123"; base_sha := "def456" |}
              _ eq_refl eq_refl eq_refl eq_refl mixed_result_comments)
    as [_ S].
  destruct S as (request & Hc & Hm & He); [discriminate|].
  exists request. split; [exact Hc|]. split; [exact He|].
  rewrite Hm. reflexivity.
Defined.

(** *** The partition by status *)




(** ** The scenarios of the specification, replayed *)

(** Scenario 1: everything valid; the outputs say so, nothing is warned
    about and the run succeeds. *)
Example scenario_all_valid :
  outputs (trace (sample_env (inr all_valid_result)))
  = [("valid", JBool true); ("total_events", JNum 5);
     ("valid_events", JNum 5); ("invalid_events", JNum 0);
     ("missing_events", JNum 0); ("new_events", JNum 0);
     ("tracking_plan_updated", JBool false)]
  /\ filter is_Warning (trace (sample_env (inr all_valid_result))) = []
  /\ failed (trace (sample_env (inr all_valid_result))) = false.
Proof. vm_compute. repeat split. Qed.

(** Scenario 2: an invalid result with fail-on-invalid; the failure message
    names the invalid event. *)
Example scenario_invalid_fails :
  In (SetFailed ("❌ Validation failed with 1 invalid events and 0 missing events"
                 ++ nl ++ nl ++ "Invalid events: purchase" ++ nl ++ nl
                 ++ "See the detailed output above for specific issues and locations."))
     (trace (sample_env (inr mixed_result))).
Proof. vm_compute. tauto. Qed.

(** Scenario 3: the same result with fail-on-invalid off; the warnings are
    logged and the run succeeds. *)
Example scenario_invalid_tolerated :
  failed (trace (lenient_env (inr mixed_result))) = false
  /\ In (Warning ("   Location: a.js:10"))
        (trace (lenient_env (inr mixed_result))).
Proof. vm_compute. split; [reflexivity | tauto]. Qed.

(** Scenario 4: no pull request; the hosting API is not called. *)
Example scenario_no_pull_request :
  review_calls (trace (without_pull_request (sample_env (inr mixed_result))))
  = [].
Proof. vm_compute. reflexivity. Qed.

(** Scenario 5: the service answers 500; the run fails and reports the
    status and the body. *)
Example scenario_server_error :
  trace (sample_env (inl server_error))
  = (request_trace (sample_env (inl server_error)) sample_collected
     ++ [SetFailed "Action failed: Request failed with status code 500";
         LogError "Response status: 500";
         LogError "Response data: {'error':'bad request'}"])%list.
Proof. vm_compute. reflexivity. Qed.

(** Scenario 6: three missing events give one comment. *)
Example scenario_three_missing :
  build_review_comments three_missing_result
  = Ret [aggregate_comment (missing_events three_missing_result)]
  /\ body (aggregate_comment (missing_events three_missing_result))
     = "⚠️ **Missing Events**: The following events are defined in the tracking plan but not found in the codebase:"
       ++ nl ++ nl ++ "`signup`, `login`, `checkout`" ++ nl ++ nl
       ++ "Please implement these events or remove them from the tracking plan.".
Proof. vm_compute. split; reflexivity. Qed.

(** * Further properties of the script *)

(** ** Input collection and the request *)

#[local] Instance no_posts_invariant : TraceInvariant no_posts.
Proof.
  split; unfold no_posts; [reflexivity|].
  intros a b Ha Hb.
  assert (E : forall x y, posts (x ++ y) = (posts x ++ posts y)%list).
  { induction x as [|e x IH]; intros y; simpl; [reflexivity|].
    destruct e; simpl; rewrite ?IH; reflexivity. }
  rewrite E, Ha, Hb. reflexivity.
Qed.

Lemma posts_app (a b : list effect) :
  posts (a ++ b) = (posts a ++ posts b)%list.
Proof.
  induction a as [|e a IH]; simpl; [reflexivity|].
  destruct e; simpl; rewrite ?IH; reflexivity.
Qed.

Lemma collect_inputs_plain env e :
  collect_inputs env = Throw e -> response e = None.
Proof.
  unfold collect_inputs. rewrite !getBooleanInput_spec.
  unfold getInput, context_repo. cbn [andb].
  destruct (String.eqb (inputs env "api-key") "");
    [intros [= <-]; reflexivity|].
  destruct (String.eqb (inputs env "tracking-plan-id") "");
    [intros [= <-]; reflexivity|].
  cbn [obind].
  repeat match goal with
         | |- context [recognized_boolean ?x] =>
             destruct (recognized_boolean x);
             [cbn [obind] | intros [= <-]; reflexivity]
         end.
  destruct (repo env); [discriminate | intros [= <-]; reflexivity].
Qed.

Lemma collect_inputs_expected env :
  inputs_ok env = true -> collect_inputs env = Ret (expected_inputs env).
Proof.
  unfold inputs_ok, boolean_inputs. cbn [forallb]. intros H.
  rewrite !andb_true_iff in H.
  destruct H as (((Ha & Hb) & (H1 & H2 & H3 & H4 & H5 & H6 & _)) & Hr).
  unfold collect_inputs, expected_inputs. rewrite !getBooleanInput_spec.
  unfold getInput at 1 2. cbn [andb].
  destruct (String.eqb (inputs env "api-key") ""); [discriminate|].
  destruct (String.eqb (inputs env "tracking-plan-id") ""); [discriminate|].
  cbn [obind].
  repeat match goal with
         | Hb : recognized_boolean ?x = true |- _ => rewrite Hb; clear Hb
         end.
  unfold getInput, context_repo. cbn [andb obind].
  destruct (repo env) as [r|]; [reflexivity | discriminate].
Qed.

(** X1. When input collection fails (a required input is not supplied, a
    boolean input does not parse, or the repository identity is unknown),
    the whole run consists of one [setFailed] call whose message starts
    with [Action failed: ]: nothing is logged before it, no request is
    sent, no output is set. *)
Theorem input_failure_is_terminal env :
  inputs_ok env = false ->
  exists msg, run env = (Ret tt, [SetFailed ("Action failed: " ++ msg)]).
Proof.
  intros I. destruct (collect_inputs_fails env I) as (e & C).
  exists (message e). rewrite (run_inputs_fail env e C).
  unfold run_catch. rewrite (collect_inputs_plain env e C). reflexivity.
Qed.

Lemma input_failure_is_terminal_witness :
  inputs_ok (keyless_env (inr all_valid_result)) = false
  /\ exists msg,
       run (keyless_env (inr all_valid_result))
       = (Ret tt, [SetFailed ("Action failed: " ++ msg)]).
Proof.
  split; [reflexivity|].
  apply (input_failure_is_terminal (keyless_env (inr all_valid_result))).
  reflexivity.
Defined.

Lemma addPr_no_posts env r : no_posts (snd (addPrReviewComments env r)).
Proof. unfold addPrReviewComments, pulls_createReview. trace_inv. Qed.

Lemma report_no_posts env c f r : no_posts (snd (report env c f r)).
Proof.
  pose proof (addPr_no_posts env r) as P.
  unfold report, set_outputs, fail_on_invalid, log_summary. trace_inv.
Qed.

Lemma run_catch_no_posts e : no_posts (snd (run_catch e)).
Proof. unfold run_catch. trace_inv. Qed.

(** X2. A run whose inputs are collected sends exactly one validation
    request, whatever the service answers.  It goes to the trimmed
    [api-url] followed by [/api/github-action/validate], authorized by the
    trimmed [api-key] as a bearer token; its body names the repository as
    [https://github.com/owner/repo], carries the trimmed tracking plan id,
    the five options read from the inputs [holistic], [delta],
    [auto-update], [overwrite] and [comment], and the number and head and
    base commits of the pull request when there is one. *)
Theorem one_validation_request env owner_ repo_ :
  inputs_ok env = true -> repo env = Some (owner_, repo_) ->
  posts (trace env)
  = [(trim (inputs env "api-url") ++ "/api/github-action/validate",
      {| repositoryUrl := "https://github.com/" ++ owner_ ++ "/" ++ repo_;
         trackingPlanId := trim (inputs env "tracking-plan-id");
         options :=
           {| holistic := boolean_input env "holistic";
              delta := boolean_input env "delta";
              autoUpdateTrackingPlan := boolean_input env "auto-update";
              overwriteExisting := boolean_input env "overwrite";
              comment := boolean_input env "comment" |};
         prDetails :=
           match payload_pull_request env with
           | Some pr => Some {| prNumber := number pr;
                                headSha := head_sha pr;
                                baseSha := base_sha pr |}
           | None => None
           end |},
      [("Authorization", "Bearer " ++ trim (inputs env "api-key"));
       ("Content-Type", "application/json");
       ("User-Agent", "AATX-GitHub-Action")])].
Proof.
  intros I R. pose proof (collect_inputs_expected env I) as C.
  assert (T : exists rest,
             trace env = (request_trace env (expected_inputs env) ++ rest)%list
             /\ no_posts rest).
  { unfold trace. destruct (validation_reply env) as [e|r] eqn:V.
    - rewrite (run_call_fails env _ e C V). eexists. split; [reflexivity|].
      apply run_catch_no_posts.
    - rewrite (run_call_returns env _ r C V). eexists.
      split; [reflexivity|].
      apply (inv_try_catch no_posts); [apply report_no_posts|].
      intros e. apply run_catch_no_posts. }
  destruct T as (rest & -> & N). rewrite posts_app, N.
  unfold request_trace, validationEndpoint, validationRequest,
    request_headers, expected_inputs. rewrite R. reflexivity.
Qed.

Lemma one_validation_request_witness :
  inputs_ok (sample_env (inl server_error)) = true
  /\ length (posts (trace (sample_env (inl server_error)))) = 1%nat.
Proof.
  split; [reflexivity|].
  rewrite (one_validation_request (sample_env (inl server_error))
             "octo" "shop" eq_refl eq_refl).
  reflexivity.
Defined.

(** X3. When the validation call is rejected, the run logs the endpoint,
    sends the request and then only reports the failure: [setFailed] with
    the message of the error and, when the error carries a response, two
    error lines with its status and its body. *)
Theorem validation_call_failure_trace env e :
  inputs_ok env = true -> validation_reply env = inl e ->
  run env
  = (Ret tt,
     (request_trace env (expected_inputs env)
      ++ SetFailed ("Action failed: " ++ message e)
         :: match response e with
            | Some r =>
                [LogError ("Response status: " ++ decimal (status r));
                 LogError ("Response data: " ++ data_json r)]
            | None => []
            end)%list).
Proof.
  intros I V. rewrite (run_call_fails env _ e (collect_inputs_expected env I) V).
  unfold run_catch. destruct (response e); reflexivity.
Qed.

Lemma validation_call_failure_trace_witness :
  inputs_ok (sample_env (inl server_error)) = true
  /\ failed (snd (run (sample_env (inl server_error)))) = true.
Proof.
  split; [reflexivity|].
  rewrite (validation_call_failure_trace (sample_env (inl server_error))
             server_error eq_refl eq_refl).
  reflexivity.
Defined.

(** ** Exceptions *)

Lemma try_catch_never_throws {A} (body : M A) (handler : js_error -> M A) :
  (forall e x, fst (handler e) <> Throw x) ->
  forall x, fst (try_catch body handler) <> Throw x.
Proof.
  intros H x. destruct body as [[a|e|] t]; cbn [try_catch fst];
    try discriminate.
  specialize (H e x). destruct (handler e). exact H.
Qed.

(** X4. No exception leaves [run] or [addPrReviewComments]: whatever the
    inputs, the context and the payload are, and whatever the two services
    answer, each one ends in its own [catch] block at worst.  A run whose
    reply is rejected, not an object, or a well-formed ValidationResult
    completes normally. *)
Theorem exceptions_never_escape env :
  (forall x, fst (run env) <> Throw x)
  /\ (forall result x, fst (addPrReviewComments env result) <> Throw x)
  /\ (reply_well_typed env = true -> fst (run env) = Ret tt).
Proof.
  split; [|split].
  - apply try_catch_never_throws. intros e x. rewrite run_catch_ok.
    discriminate.
  - intros result x. unfold addPrReviewComments. rewrite bind_emit.
    cbn [fst]. apply try_catch_never_throws. intros e y.
    destruct (response e); discriminate.
  - intros T.
    destruct (run_cases env) as [(_ & e & ->)|[(i & e & _ & _ & ->)|
                                               (i & r & C & R & E)]].
    + apply run_catch_ok.
    + apply run_catch_ok.
    + unfold reply_well_typed in T. rewrite R in T.
      destruct (non_null_object r) eqn:N; cbn [negb orb] in T.
      * destruct (run_wf env i r C R T) as (logs & msg & _ & ->).
        reflexivity.
      * rewrite E, (report_rejects env _ _ r N), try_catch_throw.
        apply run_catch_ok.
Qed.

Lemma exceptions_never_escape_witness :
  reply_well_typed (sample_env (inr mixed_result)) = true
  /\ fst (run (sample_env (inr mixed_result))) = Ret tt.
Proof.
  split; [reflexivity|].
  apply (proj2 (proj2 (exceptions_never_escape
                         (sample_env (inr mixed_result))))).
  reflexivity.
Defined.

(** ** The review call and its failures *)

(** X5. With a token, in a pull-request run, for a well-formed
    ValidationResult whose comment list is not empty: the one review call
    is addressed to the repository and the pull request of the context
    and carries the summary body.  When the hosting API accepts it, the
    publisher logs how many comments it created; when it rejects it, the
    publisher logs a warning with the message of the error and, if the
    error carries a response, an error line with its body, and returns
    normally all the same. *)
Theorem review_call_outcome env r owner_repo pr reviewComments :
  token_missing (GITHUB_TOKEN env) = false ->
  repo env = Some owner_repo -> payload_pull_request env = Some pr ->
  wf_result r = true ->
  build_review_comments r = Ret reviewComments -> reviewComments <> [] ->
  exists request,
    addPrReviewComments env r
    = (Ret tt,
       EnterPublisher :: CreateReview request
       :: match review_reply env with
          | None =>
              [Info ("Created PR review with "
                     ++ decimal (Z.of_nat (length reviewComments))
                     ++ " comments")]
          | Some e =>
              Warning ("Failed to add PR review comments: " ++ message e)
              :: match response e with
                 | Some x =>
                     [LogError ("GitHub API response: " ++ data_json x)]
                 | None => []
                 end
          end)
    /\ owner request = fst owner_repo
    /\ repo_name request = snd owner_repo
    /\ pull_number request = number pr
    /\ reviewBody r = Ret (review_body request).
Proof.
  intros T R P W B C.
  destruct (reviewBody_wf r W) as [text Hb].
  exists {| owner := fst owner_repo;
            repo_name := snd owner_repo;
            pull_number := number pr;
            review_body := text;
            event := expected_disposition r;
            comments := reviewComments |}.
  split; [|repeat split; exact Hb].
  unfold addPrReviewComments, context_repo, context_pr_number,
    pulls_createReview.
  rewrite T, R, P, B, Hb, (review_disposition_wf r W).
  destruct reviewComments as [|c cs]; [contradiction|].
  rewrite !bind_eval_Ret. cbn [length Nat.ltb Nat.leb].
  destruct (review_reply env) as [e|]; [|reflexivity].
  cbn. destruct (response e); reflexivity.
Qed.

Lemma review_call_outcome_witness :
  exists request,
    snd (addPrReviewComments
           (with_publishing (sample_env (inr mixed_result))
              (Some "ghs_token") (Some api_error))
           mixed_result)
    = [EnterPublisher; CreateReview request;
       Warning "Failed to add PR review comments: Unprocessable Entity";
       LogError "GitHub API response: {'message':'Path could not be resolved'}"].
Proof.
  destruct (review_call_outcome
              (with_publishing (sample_env (inr mixed_result))
                 (Some "ghs_token") (Some api_error))
              mixed_result ("octo", "shop")
              {| number := 7; head_sha := "abc123"; base_sha := "def456" |}
              _ eq_refl eq_refl eq_refl eq_refl mixed_result_comments)
    as (request & E & _); [discriminate|].
  exists request. rewrite E. reflexivity.
Defined.

(** X6. With a token, in a pull-request run, for any payload at all: when
    building the comments throws (a [null] event, a [null] first
    implementation entry, an [events] field that is not an array), the
    publisher makes no call, logs a warning with the message of the
    exception and returns normally. *)
Theorem comment_building_failure_is_logged env r owner_repo pr e :
  token_missing (GITHUB_TOKEN env) = false ->
  repo env = Some owner_repo -> payload_pull_request env = Some pr ->
  build_review_comments r = Throw e ->
  addPrReviewComments env r
  = (Ret tt,
     EnterPublisher
     :: Warning ("Failed to add PR review comments: " ++ message e)
     :: match response e with
        | Some x => [LogError ("GitHub API response: " ++ data_json x)]
        | None => []
        end).
Proof.
  intros T R P B.
  unfold addPrReviewComments, context_repo, context_pr_number.
  rewrite T, R, P, B. cbn. destruct (response e); reflexivity.
Qed.

Lemma comment_building_failure_is_logged_witness :
  addPrReviewComments (sample_env (inr null_event_result)) null_event_result
  = (Ret tt,
     [EnterPublisher;
      Warning ("Failed to add PR review comments: "
               ++ "Cannot read properties of null (reading 'status')")]).
Proof.
  apply (comment_building_failure_is_logged
           (sample_env (inr null_event_result)) null_event_result
           ("octo", "shop")
           {| number := 7; head_sha := "abc123"; base_sha := "def456" |}
           (Error "Cannot read properties of null (reading 'status')"));
    reflexivity.
Defined.

Lemma expected_comments_nil r :
  expected_comments r = []
  <-> filter located (invalid_events r) = []
      /\ filter located (new_events r) = []
      /\ missing_events r = [].
Proof.
  unfold expected_comments, event_comments. split.
  - intros H. apply app_eq_nil in H. destruct H as [H M].
    apply app_eq_nil in H. destruct H as [Hi Hn].
    apply map_eq_nil in Hi. apply map_eq_nil in Hn.
    destruct (missing_events r); [auto | discriminate].
  - intros (-> & -> & ->). reflexivity.
Qed.

(** X7. With a token, in a pull-request run, for a well-formed
    ValidationResult: the publisher calls the hosting API exactly when
    there is something to comment on, that is, when some invalid or new
    event has an implementation location or some event is missing.
    Invalid and new events without a location never cause a review. *)
Theorem review_only_when_needed env r owner_repo pr :
  token_missing (GITHUB_TOKEN env) = false ->
  repo env = Some owner_repo -> payload_pull_request env = Some pr ->
  wf_result r = true ->
  (review_calls (snd (addPrReviewComments env r)) = []
   <-> filter located (invalid_events r) = []
       /\ filter located (new_events r) = []
       /\ missing_events r = []).
Proof.
  intros T R P W. rewrite <- expected_comments_nil.
  destruct (expected_comments r) as [|c cs] eqn:E.
  - rewrite (addPr_no_comments env r owner_repo pr T R P W E).
    split; reflexivity.
  - destruct (addPr_submits env r owner_repo pr T R P W) as [text ->];
      [congruence|].
    split; discriminate.
Qed.

Lemma review_only_when_needed_witness :
  review_calls
    (snd (addPrReviewComments (sample_env (inr all_valid_result))
            all_valid_result)) = [].
Proof.
  apply (review_only_when_needed (sample_env (inr all_valid_result))
           all_valid_result ("octo", "shop")
           {| number := 7; head_sha := "abc123"; base_sha := "def456" |}
           eq_refl eq_refl eq_refl eq_refl).
  repeat split.
Defined.

(** ** The terminal failure *)

Lemma fail_on_invalid_message r :
  wf_result r = true ->
  fail_on_invalid r (invalid_events r) (missing_events r)
  = (Ret tt, [SetFailed (failure_message r)]).
Proof.
  intros W. pose proof (wf_result_events r W) as E.
  unfold fail_on_invalid, failure_message.
  rewrite !summary_or_0_wf by (trivial; in_fields).
  rewrite !bind_eval_Ret. cbn [to_string gt0].
  rewrite !count_safe by (trivial; in_fields).
  rewrite !bind_eval_Ret.
  rewrite !joined_names_wf by (apply filter_wf; trivial).
  destruct (Z.ltb 0 (count_of r "invalidEvents"));
    destruct (Z.ltb 0 (count_of r "missingEvents"));
    rewrite ?bind_eval_Ret; reflexivity.
Qed.

Lemma report_wf_trace env c f r :
  wf_result r = true ->
  exists logs,
    only_logs logs
    /\ report env c f r
       = (Ret tt,
          (logs ++ output_effects r
           ++ (if c && is_pull_request env
               then snd (addPrReviewComments env r) else [])
           ++ (if negb (truthy (field r "valid")) && f
               then [SetFailed (failure_message r)] else []))%list).
Proof.
  intros W. pose proof (wf_result_events r W) as E.
  pose proof (fail_on_invalid_message r W) as F.
  exists (snd (log_summary r)
          ++ snd (log_invalid_events (invalid_events r))
          ++ snd (log_missing_events (missing_events r))
          ++ snd (log_new_events (new_events r)))%list.
  split.
  { repeat apply inv_app; first
      [ apply log_summary_logs | apply log_invalid_events_logs
      | apply log_missing_events_logs | apply log_new_events_logs ]. }
  unfold report. rewrite report_guard.
  destruct (wf_result_object r W) as [f0 Hr].
  replace (non_null_object r) with true by (rewrite Hr; reflexivity).
  cbn [negb].
  rewrite (bind_ok (log_summary r) tt) by (apply log_summary_ok, W).
  replace (get r "events") with (Ret (field r "events"))
    by (rewrite Hr; reflexivity).
  replace (get r "valid") with (Ret (field r "valid"))
    by (rewrite Hr; reflexivity).
  rewrite !bind_eval_Ret.
  rewrite !filter_by_status_wf by trivial. rewrite !bind_eval_Ret.
  fold (invalid_events r) (missing_events r) (new_events r).
  rewrite (bind_ok (log_invalid_events _) tt)
    by (apply log_invalid_events_ok, filter_wf, E).
  rewrite (bind_ok (log_missing_events _) tt)
    by (apply log_missing_events_ok, filter_wf, E).
  rewrite (bind_ok (log_new_events _) tt)
    by (apply log_new_events_ok, filter_wf, E).
  rewrite (set_outputs_wf r W), bind_Ret. fold (output_effects r).
  assert (P : when (c && is_pull_request env) (addPrReviewComments env r)
              = (Ret tt, if c && is_pull_request env
                         then snd (addPrReviewComments env r) else [])).
  { destruct (c && is_pull_request env); [|reflexivity].
    cbn [when]. rewrite (surjective_pairing (addPrReviewComments env r)) at 1.
    rewrite (addPr_ok env r W). reflexivity. }
  rewrite P, bind_Ret.
  assert (T : when (negb (truthy (field r "valid")) && f)
                (fail_on_invalid r (invalid_events r) (missing_events r))
              = (Ret tt, if negb (truthy (field r "valid")) && f
                         then [SetFailed (failure_message r)] else [])).
  { destruct (negb (truthy (field r "valid")) && f); [|reflexivity].
    cbn [when]. exact F. }
  rewrite T. cbn [fst snd]. rewrite <- !app_assoc. reflexivity.
Qed.

Lemma run_wf_trace env r :
  inputs_ok env = true -> validation_reply env = inr r ->
  wf_result r = true ->
  exists logs,
    only_logs logs
    /\ run env
       = (Ret tt,
          (request_trace env (expected_inputs env) ++ logs
           ++ output_effects r
           ++ (if boolean_input env "comment" && is_pull_request env
               then snd (addPrReviewComments env r) else [])
           ++ (if negb (truthy (field r "valid"))
                  && boolean_input env "fail-on-invalid"
               then [SetFailed (failure_message r)] else []))%list).
Proof.
  intros I R W.
  rewrite (run_call_returns env _ r (collect_inputs_expected env I) R).
  destruct (report_wf_trace env (boolean_input env "comment")
              (boolean_input env "fail-on-invalid") r W) as (logs & L & E).
  exists logs. split; [exact L|].
  change (Inputs.comment (expected_inputs env))
    with (boolean_input env "comment").
  change (Inputs.failOnInvalid (expected_inputs env))
    with (boolean_input env "fail-on-invalid").
  cbv zeta. rewrite E. reflexivity.
Qed.

Lemma output_effects_quiet r :
  failed (output_effects r) = false
  /\ publisher_invoked (output_effects r) = false
  /\ review_calls (output_effects r) = []
  /\ outputs (output_effects r) = expected_outputs r.
Proof. repeat split. Qed.

(** X8. When a well-formed ValidationResult is not valid and
    fail-on-invalid is set, the last thing the run does is to call
    [setFailed], once.  The message gives the invalid and the missing count
    of the summary; when the invalid count is positive it names every
    invalid event, and when the missing count is positive it names every
    missing event. *)
Theorem failure_message_names_events env r :
  inputs_ok env = true -> validation_reply env = inr r ->
  wf_result r = true ->
  truthy (field r "valid") = false ->
  boolean_input env "fail-on-invalid" = true ->
  exists before msg,
    trace env = (before ++ [SetFailed msg])%list
    /\ failed before = false
    /\ contains msg
         (decimal (count_of r "invalidEvents") ++ " invalid events and "
          ++ decimal (count_of r "missingEvents") ++ " missing events")
    /\ (Z.ltb 0 (count_of r "invalidEvents") = true ->
        forall e, In e (invalid_events r) -> contains msg (name_of e))
    /\ (Z.ltb 0 (count_of r "missingEvents") = true ->
        forall e, In e (missing_events r) -> contains msg (name_of e)).
Proof.
  intros I R W V F.
  destruct (run_wf_trace env r I R W) as (logs & L & E).
  rewrite V, F in E. cbn [negb andb] in E.
  exists (request_trace env (expected_inputs env) ++ logs ++ output_effects r
          ++ (if boolean_input env "comment" && is_pull_request env
              then snd (addPrReviewComments env r) else []))%list,
         (failure_message r).
  split; [|split; [|split; [|split]]].
  - unfold trace. rewrite E. cbn [snd]. rewrite <- !app_assoc. reflexivity.
  - rewrite !failed_app. rewrite (only_logs_no_failure logs L).
    destruct (boolean_input env "comment" && is_pull_request env);
      [rewrite addPr_no_failure|]; reflexivity.
  - unfold failure_message. apply contains_before.
    destruct (Z.ltb 0 (count_of r "missingEvents"));
      [apply contains_before|];
      (destruct (Z.ltb 0 (count_of r "invalidEvents"));
       [apply contains_before|]);
      apply contains_later, contains_refl.
  - intros P e He. unfold failure_message. rewrite P.
    apply contains_before.
    assert (C : contains
                  (("❌ Validation failed with "
                    ++ decimal (count_of r "invalidEvents")
                    ++ " invalid events and "
                    ++ decimal (count_of r "missingEvents")
                    ++ " missing events")
                   ++ nl ++ nl ++ "Invalid events: "
                   ++ join ", " (map name_of (invalid_events r)))
                  (name_of e)).
    { do 4 apply contains_later. apply contains_join, in_map, He. }
    destruct (Z.ltb 0 (count_of r "missingEvents"));
      [apply contains_before|]; exact C.
  - intros P e He. unfold failure_message. rewrite P.
    apply contains_before. do 4 apply contains_later.
    apply contains_join, in_map, He.
Qed.

Lemma failure_message_names_events_witness :
  exists before msg,
    trace (sample_env (inr mixed_result)) = (before ++ [SetFailed msg])%list
    /\ contains msg "purchase".
Proof.
  destruct (failure_message_names_events (sample_env (inr mixed_result))
              mixed_result eq_refl eq_refl eq_refl eq_refl eq_refl)
    as (before & msg & E & _ & _ & N & _).
  exists before, msg. split; [exact E|].
  apply (N eq_refl (hd JNull (invalid_events mixed_result))).
  left. reflexivity.
Defined.

(** ** Outputs come first *)

(** X9. In a run that receives a well-formed ValidationResult, the seven
    outputs are set after the logging and before anything else: before
    them the run neither calls the publisher, nor the hosting API, nor
    [setFailed]; after them no output is touched again, whether the review
    is published or not and whether the run is marked failed or not. *)
Theorem outputs_precede_publishing_and_failure env r :
  inputs_ok env = true -> validation_reply env = inr r ->
  wf_result r = true ->
  exists before after,
    trace env
    = (before
       ++ map (fun o => SetOutput (fst o) (snd o)) (expected_outputs r)
       ++ after)%list
    /\ outputs before = []
    /\ publisher_invoked before = false
    /\ review_calls before = []
    /\ failed before = false
    /\ outputs after = [].
Proof.
  intros I R W. destruct (run_wf_trace env r I R W) as (logs & L & E).
  exists (request_trace env (expected_inputs env) ++ logs)%list.
  eexists. split; [|split; [|split; [|split; [|split]]]].
  - unfold trace. rewrite E. cbn [snd]. rewrite <- app_assoc. reflexivity.
  - rewrite outputs_app, (only_logs_no_outputs logs L). reflexivity.
  - rewrite publisher_invoked_app, (only_logs_no_publisher logs L).
    reflexivity.
  - rewrite review_calls_app, (only_logs_no_review logs L). reflexivity.
  - rewrite failed_app, (only_logs_no_failure logs L). reflexivity.
  - rewrite outputs_app.
    assert (P : outputs (if boolean_input env "comment" && is_pull_request env
                         then snd (addPrReviewComments env r) else []) = []).
    { destruct (boolean_input env "comment" && is_pull_request env);
        [apply addPr_no_outputs | reflexivity]. }
    rewrite P.
    destruct (negb (truthy (field r "valid"))
              && boolean_input env "fail-on-invalid"); reflexivity.
Qed.

Lemma outputs_precede_publishing_and_failure_witness :
  exists before after,
    trace (sample_env (inr mixed_result))
    = (before
       ++ map (fun o => SetOutput (fst o) (snd o))
              (expected_outputs mixed_result)
       ++ after)%list
    /\ publisher_invoked before = false
    /\ failed before = false.
Proof.
  destruct (outputs_precede_publishing_and_failure
              (sample_env (inr mixed_result)) mixed_result
              eq_refl eq_refl eq_refl)
    as (before & after & E & _ & P & _ & F & _).
  exists before, after. split; [exact E|]. split; [exact P | exact F].
Defined.

(** ** Replies that are objects but not results *)

Lemma addPr_array env items :
  fst (addPrReviewComments env (JArr items)) = Ret tt
  /\ review_calls (snd (addPrReviewComments env (JArr items))) = [].
Proof.
  unfold addPrReviewComments, context_repo, context_pr_number.
  destruct (token_missing (GITHUB_TOKEN env)); [split; reflexivity|].
  destruct (repo env); [|split; reflexivity].
  destruct (payload_pull_request env); split; reflexivity.
Qed.

(** X10. An array is accepted as a reply (it is an object for the guard
    of the script) and is reported like an empty payload: [valid] is
    [undefined], every count is 0, [tracking_plan_updated] is false; the
    hosting API is never called; and the run is marked failed exactly when
    fail-on-invalid is set. *)
Theorem array_reply_is_reported_empty env items :
  inputs_ok env = true -> validation_reply env = inr (JArr items) ->
  outputs (trace env)
  = [("valid", JUndefined);
     ("total_events", JNum 0);
     ("valid_events", JNum 0);
     ("invalid_events", JNum 0);
     ("missing_events", JNum 0);
     ("new_events", JNum 0);
     ("tracking_plan_updated", JBool false)]
  /\ review_calls (trace env) = []
  /\ failed (trace env) = boolean_input env "fail-on-invalid".
Proof.
  intros I R. unfold trace.
  rewrite (run_call_returns env _ _ (collect_inputs_expected env I) R).
  change (Inputs.comment (expected_inputs env))
    with (boolean_input env "comment").
  change (Inputs.failOnInvalid (expected_inputs env))
    with (boolean_input env "fail-on-invalid").
  cbv zeta. cbn [snd].
  destruct (addPr_array env items) as [Pok Pcalls].
  pose proof (addPr_no_outputs env (JArr items)) as Pout.
  pose proof (addPr_no_failure env (JArr items)) as Pfail.
  unfold no_outputs, no_failure in *.
  destruct (addPrReviewComments env (JArr items)) as [po pt] eqn:P.
  cbn [fst snd] in *. subst po.
  unfold report, log_summary, set_outputs, fail_on_invalid, count_text,
    summary_or_0, log_invalid_events, log_missing_events, log_new_events,
    joined_names.
  rewrite P.
  destruct (boolean_input env "comment" && is_pull_request env);
    destruct (boolean_input env "fail-on-invalid");
    cbn; rewrite ?outputs_app, ?review_calls_app, ?failed_app,
           ?Pout, ?Pcalls, ?Pfail; repeat split.
Qed.

Lemma array_reply_is_reported_empty_witness :
  failed (trace (sample_env (inr (JArr [JNum 1; JNum 2])))) = true
  /\ review_calls (trace (sample_env (inr (JArr [JNum 1; JNum 2])))) = [].
Proof.
  destruct (array_reply_is_reported_empty
              (sample_env (inr (JArr [JNum 1; JNum 2]))) [JNum 1; JNum 2]
              eq_refl eq_refl) as (_ & C & F).
  split; [exact F | exact C].
Defined.

Lemma try_catch_Throw {A} (e : js_error) (t : list effect)
  (handler : js_error -> M A) :
  try_catch (Throw e, t) handler
  = (fst (handler e), (t ++ snd (handler e))%list).
Proof. cbn [try_catch]. destruct (handler e); reflexivity. Qed.

Lemma filterM_null_throws status items :
  existsb nullish items = true ->
  exists e,
    filterM (fun x => obind (get x "status")
                        (fun s => Ret (strict_eq_string s status))) items
    = Throw e.
Proof.
  induction items as [|x items IH]; [discriminate|].
  cbn [existsb filterM]. destruct (nullish x) eqn:N.
  - intros _. destruct x; try discriminate; eexists; reflexivity.
  - cbn [orb]. intros H. destruct (IH H) as [e ->].
    destruct x; try discriminate; cbn [get obind];
      try (eexists; reflexivity).
Qed.

Lemma bad_events_throw v status :
  bad_events v = true -> exists e, filter_by_status v status = Throw e.
Proof.
  destruct v; try discriminate; cbn [bad_events filter_by_status];
    try (intros _; eexists; reflexivity).
  apply filterM_null_throws.
Qed.

(** X11. When the reply is an object whose [events] field is present but
    is not an array, or is an array that holds a [null], filtering the
    events throws: the run sets no output, never calls the publisher or
    the hosting API, and, unless it stopped in an unmodelled coercion of
    the summary, it is marked failed. *)
Theorem bad_events_fail_before_outputs env r :
  inputs_ok env = true -> validation_reply env = inr r ->
  non_null_object r = true -> bad_events (field r "events") = true ->
  outputs (trace env) = []
  /\ publisher_invoked (trace env) = false
  /\ review_calls (trace env) = []
  /\ (fst (run env) = Ret tt -> failed (trace env) = true).
Proof.
  intros I R N B. unfold trace.
  rewrite (run_call_returns env _ r (collect_inputs_expected env I) R).
  cbv zeta. cbn [fst snd].
  destruct (bad_events_throw _ "invalid" B) as [e F].
  assert (G : get r "events" = Ret (field r "events")).
  { revert N. destruct r; try discriminate; intros _; reflexivity. }
  unfold report. rewrite report_guard, N. cbn [negb].
  pose proof (log_summary_logs r) as L.
  pose proof run_catch_no_outputs as Co.
  pose proof run_catch_no_publisher as Cp.
  pose proof run_catch_no_review as Cr.
  unfold no_outputs, no_publisher, no_review in Co, Cp, Cr.
  destruct (log_summary r) as [[[]|e'|] t]; cbn [snd] in L.
  - rewrite bind_Ret, G, bind_eval_Ret, F. cbn [eval bind fst snd].
    rewrite app_nil_r, try_catch_Throw. cbn [fst snd].
    rewrite !outputs_app, !publisher_invoked_app, !review_calls_app,
      !failed_app.
    rewrite (only_logs_no_outputs t L), (only_logs_no_publisher t L),
      (only_logs_no_review t L), Co, Cp, Cr, run_catch_failed.
    repeat split. intros _. rewrite !orb_true_r. reflexivity.
  - cbn [bind]. rewrite try_catch_Throw. cbn [fst snd].
    rewrite !outputs_app, !publisher_invoked_app, !review_calls_app,
      !failed_app.
    rewrite (only_logs_no_outputs t L), (only_logs_no_publisher t L),
      (only_logs_no_review t L), Co, Cp, Cr, run_catch_failed.
    repeat split. intros _. rewrite !orb_true_r. reflexivity.
  - cbn [bind try_catch fst snd].
    rewrite !outputs_app, !publisher_invoked_app, !review_calls_app.
    rewrite (only_logs_no_outputs t L), (only_logs_no_publisher t L),
      (only_logs_no_review t L).
    repeat split. discriminate.
Qed.

Lemma bad_events_fail_before_outputs_witness :
  bad_events (field null_event_result "events") = true
  /\ outputs (trace (sample_env (inr null_event_result))) = []
  /\ failed (trace (sample_env (inr null_event_result))) = true.
Proof.
  split; [reflexivity|].
  destruct (bad_events_fail_before_outputs
              (sample_env (inr null_event_result)) null_event_result
              eq_refl eq_refl eq_refl eq_refl) as (O & _ & _ & F).
  split; [exact O | apply F; reflexivity].
Defined.

(** ** What is logged *)

#[local] Instance only_warnings_invariant : TraceInvariant only_warnings.
Proof.
  split; unfold only_warnings; [reflexivity|].
  intros a b Ha Hb. rewrite forallb_app, Ha, Hb. reflexivity.
Qed.

#[local] Instance only_infos_invariant : TraceInvariant only_infos.
Proof.
  split; unfold only_infos; [reflexivity|].
  intros a b Ha Hb. rewrite forallb_app, Ha, Hb. reflexivity.
Qed.

(** X12. Whatever the events are, invalid and missing events are reported
    through warnings only, and new events and the summary through info
    lines only; none of the four reporting steps sets an output, fails the
    run or calls a service. *)
Theorem report_log_levels (events : list value) (result : value) :
  only_warnings (snd (log_invalid_events events))
  /\ only_warnings (snd (log_missing_events events))
  /\ only_infos (snd (log_new_events events))
  /\ only_infos (snd (log_summary result)).
Proof.
  repeat split.
  - unfold log_invalid_events. trace_inv.
  - unfold log_missing_events. trace_inv.
  - unfold log_new_events. trace_inv.
  - unfold log_summary. trace_inv.
Qed.

Lemma wf_result_flag r :
  wf_result r = true ->
  truthy (field r "trackingPlanUpdated") = flag_of r "trackingPlanUpdated".
Proof.
  destruct r; try discriminate. cbn [wf_result]. rewrite !andb_true_iff.
  intros ((((_ & _) & _) & U) & _). unfold flag_of. cbn [field].
  destruct (lookup "trackingPlanUpdated" fields); try discriminate;
    reflexivity.
Qed.

(** X13. For a well-formed ValidationResult the summary is logged as six
    info lines, the verdict and the five counts in the order total, valid,
    invalid, missing, new, each count being 0 when the payload does not
    give it, followed by a seventh line exactly when the tracking plan was
    updated. *)
Theorem summary_lines r :
  wf_result r = true ->
  log_summary r
  = (Ret tt,
     ([Info ("Validation completed with "
             ++ (if truthy (field r "valid") then "success" else "errors"));
       Info ("Total events: " ++ decimal (count_of r "totalEvents"));
       Info ("Valid events: " ++ decimal (count_of r "validEvents"));
       Info ("Invalid events: " ++ decimal (count_of r "invalidEvents"));
       Info ("Missing events: " ++ decimal (count_of r "missingEvents"));
       Info ("New events: " ++ decimal (count_of r "newEvents"))]
      ++ (if flag_of r "trackingPlanUpdated"
          then [Info "Tracking plan was automatically updated with new events"]
          else []))%list).
Proof.
  intros W. unfold log_summary.
  rewrite !count_text_wf by (trivial; in_fields).
  rewrite <- (wf_result_flag r W).
  destruct (wf_result_object r W) as [f ->].
  rewrite !get_object, !bind_eval_Ret.
  destruct (truthy (field (JObj f) "trackingPlanUpdated")); reflexivity.
Qed.

Lemma summary_lines_witness :
  snd (log_summary all_valid_result)
  = [Info "Validation completed with success";
     Info "Total events: 5"; Info "Valid events: 5";
     Info "Invalid events: 0"; Info "Missing events: 0";
     Info "New events: 0"].
Proof.
  rewrite (summary_lines all_valid_result eq_refl). reflexivity.
Defined.

#[local] Instance no_entry_invariant : TraceInvariant no_entry.
Proof.
  split; unfold no_entry; [reflexivity|].
  intros a b Ha Hb. rewrite filter_app, Ha, Hb. reflexivity.
Qed.

Lemma event_details_no_entry (line : string -> effect) (event : value) :
  (forall s, opens_entry (line ("   " ++ s)) = false) ->
  forall label other,
    no_entry (snd (log_message (fun s => emit (line s)) label event))
    /\ no_entry (snd (log_location (fun s => emit (line s)) event))
    /\ no_entry (snd (log_properties (fun s => emit (line s)) other event)).
Proof.
  intros H label other.
  assert (E : forall s, no_entry (snd (emit (line ("   " ++ s)))))
    by (intros s; unfold no_entry; cbn [emit snd filter]; rewrite H;
        reflexivity).
  repeat split.
  - unfold log_message. trace_inv. apply E.
  - unfold log_location. trace_inv; apply E.
  - unfold log_properties. trace_inv. apply E.
Qed.

Lemma numbered_section (line : string -> effect) (details : value -> M unit)
  (events : list value) :
  (forall s, opens_entry (line (nl ++ s)) = true) ->
  (forall e, wf_event e = true ->
             fst (details e) = Ret tt /\ no_entry (snd (details e))) ->
  forallb wf_event events = true ->
  forall first,
    filter opens_entry
      (snd (forEach (fun event index =>
                       heading <- eval (event_heading event index) ;;
                       emit (line heading) ;;
                       details event) events first))
    = numbered line first events.
Proof.
  intros Hl Hd. induction events as [|e events IH]; intros W first;
    [reflexivity|].
  cbn [forallb] in W. apply andb_prop in W. destruct W as [We Wl].
  destruct (Hd e We) as [Ok Quiet].
  cbn [forEach]. rewrite (event_heading_wf e first We), bind_eval_Ret.
  rewrite bind_emit.
  rewrite (bind_ok (fst (details e), _) tt) by exact Ok.
  cbn [snd]. rewrite filter_app. cbn [filter]. rewrite Hl.
  unfold no_entry in Quiet. rewrite Quiet, (IH Wl (S first)). reflexivity.
Qed.

(** X14. For a non-empty list of well-formed events, the lines of a
    section that start with a line break are its header, which gives the
    number of events of the section, followed by one line per event that
    gives its position, counted from 1 in the order of the payload, and its
    name.  This holds of the invalid and the missing section (warnings)
    and of the new section (info lines). *)
Theorem event_headings_numbered (events : list value) :
  forallb wf_event events = true -> events <> [] ->
  filter opens_entry (snd (log_invalid_events events))
  = Warning (nl ++ "❌ INVALID EVENTS ("
             ++ decimal (Z.of_nat (length events)) ++ "):")
    :: numbered Warning 0 events
  /\ filter opens_entry (snd (log_missing_events events))
     = Warning (nl ++ "⚠️ MISSING EVENTS ("
                ++ decimal (Z.of_nat (length events)) ++ "):")
       :: numbered Warning 0 events
  /\ filter opens_entry (snd (log_new_events events))
     = Info (nl ++ "🆕 NEW EVENTS ("
             ++ decimal (Z.of_nat (length events)) ++ "):")
       :: numbered Info 0 events.
Proof.
  intros W N.
  assert (Hw : forall s, opens_entry (Warning ("   " ++ s)) = false)
    by reflexivity.
  assert (Hi : forall s, opens_entry (Info ("   " ++ s)) = false)
    by reflexivity.
  assert (Ok : forall s, fst (core_warning s) = Ret tt) by reflexivity.
  assert (Oki : forall s, fst (core_info s) = Ret tt) by reflexivity.
  assert (Hh : forall s, opens_entry (Warning (nl ++ s)) = true)
    by reflexivity.
  assert (Hhi : forall s, opens_entry (Info (nl ++ s)) = true)
    by reflexivity.
  assert (P : Nat.ltb 0 (length events) = true)
    by (destruct events; [contradiction | reflexivity]).
  repeat split.
  - unfold log_invalid_events, core_warning. rewrite P. cbn [when].
    rewrite bind_emit. cbn [snd filter]. rewrite Hh. f_equal.
    apply (numbered_section Warning
             (fun event =>
                log_message (fun s => emit (Warning s)) "Error" event ;;
                log_location (fun s => emit (Warning s)) event ;;
                log_properties (fun s => emit (Warning s))
                  "Required Properties" event)%action);
      [reflexivity | | exact W].
    intros e We.
    destruct (event_details_no_entry Warning e Hw "Error"
                "Required Properties") as (Q1 & Q2 & Q3).
    split.
    + rewrite (fst_bind_ok _ tt) by (apply log_message_ok; trivial).
      rewrite (fst_bind_ok _ tt) by (apply log_location_ok; trivial).
      apply log_properties_ok; trivial.
    + apply (inv_bind no_entry); [exact Q1|]. intros _.
      apply (inv_bind no_entry); [exact Q2|]. intros _. exact Q3.
  - unfold log_missing_events, core_warning. rewrite P. cbn [when].
    rewrite bind_emit. cbn [snd filter]. rewrite Hh. f_equal.
    apply (numbered_section Warning
             (fun event =>
                log_message (fun s => emit (Warning s)) "Note" event ;;
                log_properties (fun s => emit (Warning s))
                  "Required Properties" event)%action);
      [reflexivity | | exact W].
    intros e We.
    destruct (event_details_no_entry Warning e Hw "Note"
                "Required Properties") as (Q1 & _ & Q3).
    split.
    + rewrite (fst_bind_ok _ tt) by (apply log_message_ok; trivial).
      apply log_properties_ok; trivial.
    + apply (inv_bind no_entry); [exact Q1|]. intros _. exact Q3.
  - unfold log_new_events, core_info. rewrite P. cbn [when].
    rewrite bind_emit. cbn [snd filter]. rewrite Hhi. f_equal.
    apply (numbered_section Info
             (fun event =>
                log_location (fun s => emit (Info s)) event ;;
                log_properties (fun s => emit (Info s))
                  "Detected Properties" event)%action);
      [reflexivity | | exact W].
    intros e We.
    destruct (event_details_no_entry Info e Hi "Error"
                "Detected Properties") as (_ & Q2 & Q3).
    split.
    + rewrite (fst_bind_ok _ tt) by (apply log_location_ok; trivial).
      apply log_properties_ok; trivial.
    + apply (inv_bind no_entry); [exact Q2|]. intros _. exact Q3.
Qed.

Lemma event_headings_numbered_witness :
  filter opens_entry
    (snd (log_missing_events (events_of three_missing_result)))
  = [Warning (nl ++ "⚠️ MISSING EVENTS (3):");
     Warning (nl ++ "1. Event: signup");
     Warning (nl ++ "2. Event: login");
     Warning (nl ++ "3. Event: checkout")].
Proof.
  rewrite (proj1 (proj2 (event_headings_numbered
                           (events_of three_missing_result) eq_refl
                           ltac:(discriminate)))).
  reflexivity.
Defined.

(** ** Selecting events *)

Lemma filterM_status_any status items :
  existsb nullish items = false ->
  filterM (fun e => obind (get e "status")
                      (fun s => Ret (strict_eq_string s status))) items
  = Ret (filter (has_status status) items).
Proof.
  induction items as [|e items IH]; [reflexivity|].
  cbn [existsb]. intros H. apply orb_false_iff in H. destruct H as [Ne Ni].
  cbn [filterM filter]. rewrite (IH Ni).
  destruct e; try discriminate; reflexivity.
Qed.

(** X15. The status filter of the script, on any value of [result.events]:
    when the field is absent or [null] it selects nothing; on an array
    without [null] entries it selects, in order, exactly the entries that
    are objects whose [status] is the given string, whatever else the
    array holds; on anything else (a non-array, or an array with a [null]
    entry) it throws. *)
Theorem status_filter_characterised (events : value) (status : string) :
  (bad_events events = false ->
   filter_by_status events status
   = Ret (filter (has_status status)
            (match events with JArr items => items | _ => [] end)))
  /\ (bad_events events = true ->
      exists e, filter_by_status events status = Throw e).
Proof.
  split; [|apply bad_events_throw].
  destruct events; try discriminate; try reflexivity.
  cbn [bad_events filter_by_status]. apply filterM_status_any.
Qed.

Lemma status_filter_characterised_witness :
  filter_by_status
    (JArr [JNum 3; missing_event "signup"; JStr "missing"; JArr []])
    "missing"
  = Ret [missing_event "signup"].
Proof.
  apply (proj1 (status_filter_characterised
                  (JArr [JNum 3; missing_event "signup"; JStr "missing";
                         JArr []]) "missing")).
  reflexivity.
Defined.

(** ** The detail lines of an event *)

(** X16. For a well-formed event, the location lines of the log are read
    from the first implementation entry alone: one line with its path and
    line and, when it has non-empty code, one line with the code trimmed.
    Further entries are never looked at, and an event without
    implementation entries gets no location line. *)
Theorem location_lines_use_first_entry (line_ : string -> effect)
  (e impl : value) (others : list value) (p : string) (n : Z) :
  wf_event e = true ->
  (implementations e = [] ->
   log_location (fun s => emit (line_ s)) e = (Ret tt, []))
  /\ (implementations e = impl :: others ->
      field impl "path" = JStr p -> field impl "line" = JNum n ->
      log_location (fun s => emit (line_ s)) e
      = (Ret tt,
         line_ ("   Location: " ++ p ++ ":" ++ decimal n)
         :: match field impl "code" with
            | JStr c =>
                if String.eqb c "" then []
                else [line_ ("   Code: " ++ trim c)]
            | _ => []
            end)).
Proof.
  intros W. unfold log_location.
  rewrite (has_implementation_wf e W), bind_eval_Ret. split.
  - intros E. unfold located. rewrite E. reflexivity.
  - intros E Hp Hl.
    assert (L : located e = true) by (unfold located; rewrite E; reflexivity).
    pose proof (located_wf e W L) as Wi.
    rewrite L. cbn [when].
    rewrite (first_implementation_wf e W), bind_eval_Ret.
    rewrite E in *. cbn [hd] in *.
    destruct (wf_implementation_fields impl Wi) as (fi & -> & _ & Hc & Hcode).
    cbn [field] in Hp, Hl. rewrite !get_object. cbn [field obind].
    rewrite Hp, Hl in *. cbn [to_string is_count] in *.
    rewrite Hc, !bind_eval_Ret.
    destruct (lookup "code" fi); try discriminate; try reflexivity.
    cbn [truthy call_trim]. destruct (String.eqb s ""); reflexivity.
Qed.

Lemma location_lines_use_first_entry_witness :
  snd (log_location (fun s => emit (Warning s))
         (hd JNull (events_of mixed_result)))
  = [Warning "   Location: a.js:10"].
Proof.
  rewrite (proj2 (location_lines_use_first_entry Warning
                    (hd JNull (events_of mixed_result))
                    (JObj [("path", JStr "a.js"); ("line", JNum 10)])
                    [JObj [("path", JStr "b.js"); ("line", JNum 3)]]
                    "a.js" 10 eq_refl) eq_refl eq_refl eq_refl).
  reflexivity.
Defined.

(** X17. For a well-formed event whose [properties] is an object, the log
    and the review comment treat an empty object differently: the log
    prints the property line only when there is at least one property,
    while the comment then shows an empty list, not the none-marker, which
    is kept for events without a [properties] field. *)
Theorem empty_properties_are_not_absent (line_ : string -> effect)
  (label none : string) (e : value) (f : list (string * value)) :
  wf_event e = true -> field e "properties" = JObj f ->
  log_properties (fun s => emit (line_ s)) label e
  = (Ret tt,
     match f with
     | [] => []
     | _ :: _ => [line_ ("   " ++ label ++ ": " ++ join ", " (map fst f))]
     end)
  /\ properties_text e none = Ret (join ", " (map fst f))
  /\ (f = [] -> properties_text e none = Ret "").
Proof.
  intros W P. destruct (wf_event_fields e W) as (fe & -> & _).
  cbn [field] in P. unfold log_properties, properties_text.
  rewrite !get_object. cbn [field obind]. rewrite P, bind_eval_Ret.
  cbn [truthy when object_keys obind]. rewrite bind_eval_Ret.
  repeat split.
  - destruct f; reflexivity.
  - intros ->. reflexivity.
Qed.

Lemma empty_properties_are_not_absent_witness :
  properties_text
    (JObj [("name", JStr "click"); ("status", JStr "new");
           ("properties", JObj [])]) "None detected"
  = Ret "".
Proof.
  apply (proj2 (proj2 (empty_properties_are_not_absent Info "Properties"
                         "None detected"
                         (JObj [("name", JStr "click"); ("status", JStr "new");
                                ("properties", JObj [])])
                         [] eq_refl eq_refl))).
  reflexivity.
Defined.

(** ** The partition by status, in the run *)










